(** * Report loader: paginated retrieval of report data

    A shallow embedding of [src/index.ts]: the query executor
    [fetchReportDataPage], the pagination aggregator [fetchReportData] and
    the command line program around them, followed by the properties
    of the specification that were checked against it.

    Modelling conventions.
    - Numbers that the program computes with ([totalItems], [pageSize],
      [page]) are integer-valued; they are modelled by [Z].  Within the safe
      integer range the double-precision quotient [a / b] followed by
      [Math.ceil] is the exact ceiling of the rational quotient, so no
      rounding is modelled.  Division by zero and the resulting [Infinity]
      and [NaN] values are modelled ([number]).
    - A promise is modelled by its eventual settlement; the moment at which
      concurrent promises settle is an explicit completion [order].
    - The network calls, the console and [process.exit] are effects of a
      small state-and-completion monad [M] over a [World]. *)

From Stdlib Require Import ZArith Lia.
From stdpp Require Import base option list sets strings pretty.

(** ** JavaScript values *)

(** A property of a received object: absent, [null], or holding a value. *)
Inductive field (A : Type) : Type :=
  | Undefined
  | Null
  | Value (a : A).
Arguments Undefined {A}.
Arguments Null {A}.
Arguments Value {A} a.

(** [x || d] for a property [x] whose values have truthiness [truthy]. *)
Definition js_or {A : Type} (truthy : A -> bool) (x : field A) (d : A) : A :=
  match x with
  | Value a => if truthy a then a else d
  | Undefined | Null => d
  end.

(** Arrays are always truthy, a number is truthy unless it is zero, a string
    unless it is empty. *)
Definition truthy_array {A : Type} (_ : list A) : bool := true.
Definition truthy_number (z : Z) : bool := negb (z =? 0)%Z.
Definition truthy_string (s : string) : bool :=
  match s with EmptyString => false | String _ _ => true end.

(** [!x] for an environment variable, which is a string or unset. *)
Definition js_not (x : option string) : bool :=
  match x with
  | Some s => negb (truthy_string s)
  | None => true
  end.

(** Opaque JSON values ([any] in the source); never inspected. *)
#[warnings="-register-all"] Inductive Json : Type :=
  | JNull
  | JBool (b : bool)
  | JNumber (z : Z)
  | JString (s : string)
  | JArray (xs : list Json)
  | JObject (kvs : list (string * Json)).

(** Truthiness of a JSON value: [null], [false], [0] and the empty string
    are falsy, everything else (arrays and objects included) is truthy. *)
Definition truthy_json (j : Json) : bool :=
  match j with
  | JNull => false
  | JBool b => b
  | JNumber z => truthy_number z
  | JString s => truthy_string s
  | JArray _ | JObject _ => true
  end.

(** ** Numbers: division and [Math.ceil] *)

Module Number.
Local Open Scope Z_scope.

(** The value of [a / b] for integers [a], [b]: an exact ratio with a
    non-zero denominator, or one of the special values. *)
Inductive quotient : Type :=
  | Ratio (n d : Z)
  | QInfinity
  | QNegInfinity
  | QNaN.

(** An integer-valued number or a special value. *)
Inductive number : Type :=
  | Finite (z : Z)
  | Infinity
  | NegInfinity
  | NaN.

Definition js_div (a b : Z) : quotient :=
  if b =? 0 then
    if 0 <? a then QInfinity
    else if a <? 0 then QNegInfinity
    else QNaN
  else Ratio a b.

(** [Z.div] rounds towards minus infinity for either sign of the divisor,
    so the ceiling of [n / d] is [- ((- n) / d)]. *)
Definition Math_ceil (q : quotient) : number :=
  match q with
  | Ratio n d => Finite (- ((- n) / d))
  | QInfinity => Infinity
  | QNegInfinity => NegInfinity
  | QNaN => NaN
  end.

(** [x < y]; every comparison with [NaN] is false. *)
Definition ltb (x y : number) : bool :=
  match x, y with
  | NaN, _ | _, NaN => false
  | Finite a, Finite b => a <? b
  | Finite _, Infinity => true
  | Finite _, NegInfinity => false
  | Infinity, _ => false
  | NegInfinity, NegInfinity => false
  | NegInfinity, _ => true
  end.

(** [x <= y]. *)
Definition leb (x y : number) : bool :=
  match x, y with
  | NaN, _ | _, NaN => false
  | Finite a, Finite b => a <=? b
  | Finite _, Infinity => true
  | Finite _, NegInfinity => false
  | Infinity, Infinity => true
  | Infinity, _ => false
  | NegInfinity, _ => true
  end.

(** [x > y] is [y < x]. *)
Definition gtb (x y : number) : bool := ltb y x.

End Number.
Import Number.

(** ** Data model *)

Record PaginationInput : Type := mkPagination {
  page : Z;
  pageSize : Z;
}.

(** The variables of one [reportData] query. *)
Record QueryVariables : Type := mkVariables {
  var_uuid : string;
  var_filter : option Json;
  var_pagination : PaginationInput;
  var_sorting : option (list Json);
}.

(** The object [result.data.reportData] as received: either property may
    be absent.  The value of [reportData] itself may be [null] or absent,
    so a response carries a [field ReportData]. *)
Record ReportData : Type := mkReportData {
  data_items : field (list Json);
  data_totalItems : field Z;
}.

(** The record returned by both fetch functions. *)
Record PageResult : Type := mkPageResult {
  items : list Json;
  totalItems : Z;
}.

Record GraphQLError : Type := mkGraphQLError {
  gql_message : string;
  gql_extensions : option Json;
}.

Record Error : Type := mkError {
  message : string;
  graphQLErrors : option (list GraphQLError);
}.

(** ** Promises *)

(** A promise, identified with the way it eventually settles. *)
Inductive Promise (A : Type) : Type :=
  | Fulfilled (a : A)
  | Rejected (e : Error).
Arguments Fulfilled {A} a.
Arguments Rejected {A} e.


(** The continuation of an async function after its [await], when that
    continuation has no effect but may throw. *)
Definition then_try {A B : Type} (p : Promise A) (f : A -> Promise B)
  : Promise B :=
  match p with
  | Fulfilled a => f a
  | Rejected e => Rejected e
  end.

(** A [TypeError] with the given message. *)
Definition TypeError (message : string) : Error := mkError message None.

(** The client: each query handed to it is answered, successfully (with the
    value of [result.data.reportData]) or not.  With
    [fetchPolicy: "no-cache"] no query is answered from a cache. *)
Definition ApolloClient : Type := QueryVariables -> Promise (field ReportData).

(** ** Effects *)

Record World : Type := mkWorld {
  requests : list QueryVariables;
  stdout : list string;
  stderr : list string;
}.

Definition initial_world : World := mkWorld [] [] [].

(** How a computation ends: with a value, with a thrown error, by
    [process.exit], or never. *)
Inductive completion (A : Type) : Type :=
  | Return (a : A)
  | Throw (e : Error)
  | Exit (code : Z)
  | Hang.
Arguments Return {A} a.
Arguments Throw {A} e.
Arguments Exit {A} code.
Arguments Hang {A}.

Definition M (A : Type) : Type := World -> completion A * World.

Definition ret {A : Type} (a : A) : M A := fun w => (Return a, w).

Definition bind {A B : Type} (m : M A) (k : A -> M B) : M B :=
  fun w =>
    match m w with
    | (Return a, w') => k a w'
    | (Throw e, w') => (Throw e, w')
    | (Exit c, w') => (Exit c, w')
    | (Hang, w') => (Hang, w')
    end.

Notation "x <~ m ;; k" := (bind m (fun x => k))
  (at level 100, m at next level, right associativity).
Notation "m ;;; k" := (bind m (fun _ => k))
  (at level 100, right associativity).

Definition throw {A : Type} (e : Error) : M A := fun w => (Throw e, w).
Definition hang {A : Type} : M A := fun w => (Hang, w).
Definition process_exit {A : Type} (code : Z) : M A := fun w => (Exit code, w).

(** [try { m } catch (error) { h error }].  [process.exit] is not an
    exception and is not intercepted. *)
Definition try_catch {A : Type} (m : M A) (h : Error -> M A) : M A :=
  fun w =>
    match m w with
    | (Throw e, w') => h e w'
    | r => r
    end.

(** [await p]. *)
Definition await {A : Type} (p : Promise A) : M A :=
  match p with
  | Fulfilled a => ret a
  | Rejected e => throw e
  end.

Definition console_log (line : string) : M unit :=
  fun w => (Return tt, mkWorld (requests w) (stdout w ++ [line]) (stderr w)).

Definition console_error (line : string) : M unit :=
  fun w => (Return tt, mkWorld (requests w) (stdout w) (stderr w ++ [line])).

(** [client.query({ query: REPORT_DATA_QUERY, variables, fetchPolicy })]:
    the query is handed to the client at the call and recorded in
    [requests]; the promise settles later.  [requests] is the log of these
    calls: whether a call opens a connection is up to the client. *)
Definition client_query (client : ApolloClient) (variables : QueryVariables)
  : M (Promise (field ReportData)) :=
  fun w =>
    (Return (client variables),
     mkWorld (requests w ++ [variables]) (stdout w) (stderr w)).

(** ** Query executor *)

(** [fetchReportDataPage(client, uuid, filter, pagination, sorting)].
    The call issues the query at once and returns the promise of the
    normalised page; the part after the [await] has no effect of its own,
    but reading a property of a [reportData] that is [null] or absent
    throws a [TypeError].
    The default of [pagination] is supplied by the callers. *)
Definition fetchReportDataPage (client : ApolloClient) (uuid : string)
    (filter : option Json) (pagination : PaginationInput)
    (sorting : option (list Json)) : M (Promise PageResult) :=
  result <~ client_query client (mkVariables uuid filter pagination sorting) ;;
  ret (then_try result (fun data_reportData =>
         match data_reportData with
         | Value reportData =>
             let items := js_or truthy_array (data_items reportData) [] in
             let totalItems :=
               js_or truthy_number (data_totalItems reportData) 0%Z in
             Fulfilled (mkPageResult items totalItems)
         | Null =>
             Rejected (TypeError
               "Cannot read properties of null (reading 'items')")
         | Undefined =>
             Rejected (TypeError
               "Cannot read properties of undefined (reading 'items')")
         end)).

(** ** [Promise.all] *)

Module PromiseAll.

(** The aggregate promise: the array of values received so far, the number
    of elements still awaited, and the settlement once it has happened. *)
Record state (A : Type) : Type := mkState {
  values : list (option A);
  remaining : nat;
  settled : option (Promise (list A));
}.
Arguments mkState {A} values remaining settled.
Arguments values {A} s.
Arguments remaining {A} s.
Arguments settled {A} s.

(** Subscription to [n] promises.  An empty input resolves at once. *)
Definition start {A : Type} (n : nat) : state A :=
  mkState (replicate n None) n
          (match n with O => Some (Fulfilled []) | S _ => None end).

(** The promise at position [i] settles.  A rejection settles the
    aggregate at once; a value is stored at its position and the aggregate
    resolves with the array when nothing remains.  Once the aggregate is
    settled, and for a position that has already delivered, nothing
    happens. *)
Definition settle {A : Type} (promises : list (Promise A)) (st : state A)
    (i : nat) : state A :=
  match settled st with
  | Some _ => st
  | None =>
    match promises !! i, values st !! i with
    | Some (Rejected e), Some None =>
        mkState (values st) (remaining st) (Some (Rejected e))
    | Some (Fulfilled a), Some None =>
        let values' := <[i := Some a]> (values st) in
        let remaining' := Nat.pred (remaining st) in
        mkState values' remaining'
                (match remaining' with
                 | O => Some (Fulfilled (omap id values'))
                 | S _ => None
                 end)
    | _, _ => st
    end
  end.

(** [Promise.all(promises)] when the promises settle in the given [order]
    (positions in the input array).  [None]: still pending after all the
    settlements of [order]. *)
Definition all {A : Type} (order : list nat) (promises : list (Promise A))
  : option (Promise (list A)) :=
  settled (foldl (settle promises) (start (length promises)) order).

End PromiseAll.

(** [await Promise.all(promises)]; a promise that stays pending never
    resumes the caller. *)
Definition await_all {A : Type} (order : list nat) (promises : list (Promise A))
  : M (list A) :=
  match PromiseAll.all order promises with
  | Some p => await p
  | None => hang
  end.

(** ** Pagination aggregator *)

(** [for (let page = ...; page <= totalPages; page++) pagePromises.push(...)],
    entered with the current [page] and the promises pushed so far.  Every
    iteration uses one unit of [fuel]; the loop hangs when none is left. *)
Fixpoint for_pages (fuel : nat) (client : ApolloClient) (uuid : string)
    (filter : option Json) (pageSize : Z) (sorting : option (list Json))
    (totalPages : number) (page : Z) (pagePromises : list (Promise PageResult))
  : M (list (Promise PageResult)) :=
  match fuel with
  | O => hang
  | S fuel' =>
    if Number.leb (Finite page) totalPages then
      p <~ fetchReportDataPage client uuid filter (mkPagination page pageSize)
             sorting ;;
      for_pages fuel' client uuid filter pageSize sorting totalPages
                (page + 1)%Z (pagePromises ++ [p])
    else ret pagePromises
  end.

(** [fetchReportData(client, uuid, filter, pageSize, sorting)], awaited by
    its caller.  [order] is the order in which the concurrent requests for
    the remaining pages complete. *)
Definition fetchReportData (fuel : nat) (order : list nat)
    (client : ApolloClient) (uuid : string) (filter : option Json)
    (pageSize : Z) (sorting : option (list Json)) : M PageResult :=
  firstPagePromise <~ fetchReportDataPage client uuid filter
                        (mkPagination 1 pageSize) sorting ;;
  firstPage <~ await firstPagePromise ;;
  let totalItems := totalItems firstPage in
  let allItems := items firstPage in
  let totalPages := Math_ceil (js_div totalItems pageSize) in
  allItems <~
    (if Number.gtb totalPages (Finite 1) then
       pagePromises <~ for_pages fuel client uuid filter pageSize sorting
                         totalPages 2%Z [] ;;
       remainingPages <~ await_all order pagePromises ;;
       ret (foldl (fun allItems page => allItems ++ items page)
                  allItems remainingPages)
     else ret allItems) ;;
  ret (mkPageResult allItems totalItems).

(** ** The program *)

Record Env : Type := mkEnv {
  COSTLOCKER_API_URL : option string;
  COSTLOCKER_API_TOKEN : option string;
  REPORT_UUID : option string;
}.

Definition newline : string := String (Ascii.ascii_of_nat 10) EmptyString.

(** [`${x}`] for a string that may be [undefined]. *)
Definition interpolate (x : option string) : string :=
  match x with
  | Some s => s
  | None => "undefined"
  end.

(** [console.error(a, b)]: the arguments are printed separated by a space. *)
Definition console_error2 (a b : string) : M unit :=
  console_error (a +:+ " " +:+ b).

(** [xs.forEach((x, index) => body)]. *)
Fixpoint forEach_from {A : Type} (index : nat) (body : A -> nat -> M unit)
    (xs : list A) : M unit :=
  match xs with
  | [] => ret tt
  | x :: xs' => body x index ;;; forEach_from (S index) body xs'
  end.
Definition forEach {A : Type} (xs : list A) (body : A -> nat -> M unit)
  : M unit := forEach_from 0 body xs.

Section Program.

(** The transport behind the client: what the endpoint [uri] answers to a
    query carrying the given [Authorization] header. *)
Variable transport : option string -> string -> ApolloClient.

(** [JSON.stringify(x)], [JSON.stringify(x, null, 2)] and the rendering of an
    error object by the console. *)
Variable JSON_stringify : Json -> string.
Variable JSON_stringify_indent : list Json -> string.
Variable inspect : Error -> string.

(** The course of the network: fuel for the page loop and the completion
    order of the concurrent requests. *)
Variable fuel : nat.
Variable order : list nat.

Variable env : Env.

Definition API_URL : option string := COSTLOCKER_API_URL env.
Definition API_TOKEN : option string := COSTLOCKER_API_TOKEN env.

(** The guard at the top of the module. *)
Definition check_token : M unit :=
  if js_not API_TOKEN then
    console_error "Error: COSTLOCKER_API_TOKEN environment variable is required" ;;;
    console_error "Please create a .env file based on .env.example" ;;;
    process_exit 1%Z
  else ret tt.

Definition createApolloClient : ApolloClient :=
  transport API_URL ("Static " +:+ interpolate API_TOKEN).

Definition default_pageSize : Z := 100%Z.

Definition report_error (error : Error) : M unit :=
  console_error2 (newline +:+ "Fatal error:") (message error) ;;;
  match graphQLErrors error with
  | Some errors =>
      forEach errors (fun gqlError index =>
        console_error ("  GraphQL Error [" +:+ pretty (index + 1)%nat +:+ "]: "
                       +:+ gql_message gqlError) ;;;
        match gql_extensions gqlError with
        | Some extensions =>
            if truthy_json extensions then
              console_error ("    Extensions: " +:+ JSON_stringify extensions)
            else ret tt
        | None => ret tt
        end)
  | None => ret tt
  end ;;;
  process_exit 1%Z.

Definition main : M unit :=
  console_log ("Fetching report data..." +:+ newline) ;;;
  let client := createApolloClient in
  try_catch
    (let reportUuid :=
       match REPORT_UUID env with
       | Some s => if truthy_string s then s else EmptyString
       | None => EmptyString
       end in
     (if negb (truthy_string reportUuid) then
        console_error "Error: REPORT_UUID environment variable is required" ;;;
        process_exit 1%Z
      else ret tt) ;;;
     console_log ("Fetching report data for UUID: " +:+ reportUuid +:+ "..."
                  +:+ newline) ;;;
     result <~ fetchReportData fuel order client reportUuid None
                 default_pageSize None ;;
     console_log (newline +:+ "=== Report Data ===") ;;;
     console_log (JSON_stringify_indent (items result)) ;;;
     console_log ("Total items: " +:+ pretty (totalItems result)) ;;;
     console_log ("Items returned: " +:+ pretty (length (items result))) ;;;
     console_log (newline +:+ "=== Items ==="))
    report_error.

(** The whole script: the module-level guard, then [main().catch(...)]. *)
Definition script : M unit :=
  check_token ;;;
  try_catch main
    (fun error =>
       console_error2 "Unhandled error:" (inspect error) ;;;
       process_exit 1%Z).

(** One run of the program from a fresh process. *)
Definition run : completion unit * World := script initial_world.

End Program.

(** The exit code of a finished run: [0] when the script runs to its end. *)
Definition exit_code (c : completion unit) : option Z :=
  match c with
  | Return _ => Some 0%Z
  | Exit code => Some code
  | Throw _ => Some 1%Z
  | Hang => None
  end.

(** ** Vocabulary of the statements *)

(** The number of pages that hold [total] items, [size] to a page, as the
    specification writes it: [ceil(total / size)], for a page size of at
    least one ([ceiling_spec] below). *)
Definition ceiling (total size : Z) : Z := ((total + size - 1) / size)%Z.

(** The first page, and the pages that follow it up to [ceiling]. *)
Definition page_count (total size : Z) : Z := Z.max 1 (ceiling total size).

(** The normalisation that [fetchReportDataPage] applies to a response. *)
Definition normalise (reportData : ReportData) : PageResult :=
  mkPageResult (js_or truthy_array (data_items reportData) [])
               (js_or truthy_number (data_totalItems reportData) 0%Z).

(** The world after the queries [vs] have been issued. *)
Definition issue (vs : list QueryVariables) (w : World) : World :=
  mkWorld (requests w ++ vs) (stdout w) (stderr w).

(** The query for page [p], and the promise that the executor returns
    for it. *)
Definition request (uuid : string) (filter : option Json) (pageSize : Z)
    (sorting : option (list Json)) (p : Z) : QueryVariables :=
  mkVariables uuid filter (mkPagination p pageSize) sorting.

(** What the executor makes of the value of [reportData]. *)
Definition read_page (data_reportData : field ReportData)
  : Promise PageResult :=
  match data_reportData with
  | Value reportData => Fulfilled (normalise reportData)
  | Null =>
      Rejected (TypeError "Cannot read properties of null (reading 'items')")
  | Undefined =>
      Rejected (TypeError
        "Cannot read properties of undefined (reading 'items')")
  end.

Definition page_promise (client : ApolloClient) (uuid : string)
    (filter : option Json) (pageSize : Z) (sorting : option (list Json))
    (p : Z) : Promise PageResult :=
  then_try (client (request uuid filter pageSize sorting p)) read_page.

(** What the caller of [fetchReportData] gets out of the promises of the
    remaining pages. *)
Definition join (order : list nat) (firstPage : PageResult)
    (pagePromises : list (Promise PageResult)) : completion PageResult :=
  match PromiseAll.all order pagePromises with
  | None => Hang
  | Some (Rejected e) => Throw e
  | Some (Fulfilled remainingPages) =>
      Return (mkPageResult
                (items firstPage ++ concat (items <$> remainingPages))
                (totalItems firstPage))
  end.


(** * Properties *)

(** ** Ceiling of a quotient *)

Section Ceiling.
Local Open Scope Z_scope.

(** [ceiling] is the least integer [c] with [total <= c * size]. *)
Lemma ceiling_spec (total size : Z) :
  1 <= size ->
  (ceiling total size - 1) * size < total <= ceiling total size * size.
Proof.
  intros Hs. unfold ceiling.
  pose proof (Z.div_mod (total + size - 1) size ltac:(lia)) as Hdm.
  pose proof (Z.mod_pos_bound (total + size - 1) size ltac:(lia)) as Hb.
  nia.
Qed.

Lemma ceiling_unique (total size c : Z) :
  1 <= size -> (c - 1) * size < total <= c * size -> ceiling total size = c.
Proof.
  intros Hs Hc. pose proof (ceiling_spec total size Hs) as H. nia.
Qed.

Lemma Math_ceil_js_div (total size : Z) :
  1 <= size -> Math_ceil (js_div total size) = Finite (ceiling total size).
Proof.
  intros Hs. unfold js_div.
  destruct (Z.eqb_spec size 0) as [->|_]; [lia|]. cbn. f_equal.
  symmetry. apply ceiling_unique; [done|].
  pose proof (Z.div_mod (- total) size ltac:(lia)) as Hdm.
  pose proof (Z.mod_pos_bound (- total) size ltac:(lia)) as Hb.
  nia.
Qed.

Lemma ceiling_nonneg (total size : Z) :
  1 <= size -> 0 <= total -> 0 <= ceiling total size.
Proof. intros Hs Ht. pose proof (ceiling_spec total size Hs). nia. Qed.

Lemma ceiling_le_1 (total size : Z) :
  1 <= size -> total <= size -> ceiling total size <= 1.
Proof. intros Hs Ht. pose proof (ceiling_spec total size Hs). nia. Qed.

Lemma ceiling_0 (size : Z) : 1 <= size -> ceiling 0 size = 0.
Proof. intros Hs. apply ceiling_unique; lia. Qed.

(** Whatever the page size, a total of zero asks for no second page. *)
Lemma gtb_total_0 (size : Z) :
  Number.gtb (Math_ceil (js_div 0 size)) (Finite 1) = false.
Proof.
  unfold js_div. destruct (Z.eqb_spec size 0) as [->|Hne]; [reflexivity|].
  cbn. rewrite Z.div_0_l by done. reflexivity.
Qed.

(** With a page size that is not negative, a total that fits in one page
    asks for no second page; this covers the page size zero, where the
    quotient is [NaN] or minus infinity. *)
Lemma gtb_total_le_size (total size : Z) :
  0 <= size -> total <= size ->
  Number.gtb (Math_ceil (js_div total size)) (Finite 1) = false.
Proof.
  intros Hs Ht. destruct (Z.eq_dec size 0) as [->|Hne].
  - unfold js_div. cbn.
    destruct (Z.ltb_spec 0 total); [lia|].
    destruct (Z.ltb_spec total 0); reflexivity.
  - rewrite Math_ceil_js_div by lia. cbn.
    pose proof (ceiling_le_1 total size ltac:(lia) Ht). lia.
Qed.

End Ceiling.

(** ** The executor and the page loop *)

Lemma issue_nil w : issue [] w = w.
Proof. destruct w. unfold issue. cbn. by rewrite app_nil_r. Qed.

Lemma issue_issue vs1 vs2 w : issue vs2 (issue vs1 w) = issue (vs1 ++ vs2) w.
Proof. unfold issue. cbn. by rewrite app_assoc. Qed.

Section Aggregator.

Variable client : ApolloClient.
Variable uuid : string.
Variable filter : option Json.
Variable pageSize : Z.
Variable sorting : option (list Json).

#[local] Abbreviation req := (request uuid filter pageSize sorting).
#[local] Abbreviation promise_of :=
  (page_promise client uuid filter pageSize sorting).

Lemma fetchReportDataPage_run (p : Z) (w : World) :
  fetchReportDataPage client uuid filter (mkPagination p pageSize) sorting w
  = (Return (promise_of p), issue [req p] w).
Proof. reflexivity. Qed.

(** Up to a finite last page, the loop issues one query per page, in
    ascending order, and ends. *)
Lemma for_pages_finite (fuel : nat) (last : Z) :
  ∀ (p : Z) (acc : list (Promise PageResult)) (w : World),
    (Z.to_nat (last + 1 - p) < fuel)%nat →
    for_pages fuel client uuid filter pageSize sorting (Finite last) p acc w
    = (Return (acc ++ (promise_of <$> seqZ p (last + 1 - p))),
       issue (req <$> seqZ p (last + 1 - p)) w).
Proof.
  induction fuel as [|fuel IH]; intros p acc w Hfuel; [lia|].
  cbn [for_pages Number.leb].
  destruct (Z.leb_spec p last) as [Hle|Hgt].
  - unfold bind at 1. rewrite fetchReportDataPage_run.
    rewrite IH by lia.
    rewrite (seqZ_cons p (last + 1 - p)) by lia.
    replace (Z.pred (last + 1 - p)) with (last + 1 - (p + 1))%Z by lia.
    replace (Z.succ p) with (p + 1)%Z by lia.
    rewrite !fmap_cons, issue_issue, <- app_assoc. reflexivity.
  - rewrite seqZ_nil by lia. cbn. by rewrite app_nil_r, issue_nil.
Qed.

(** With no last page the loop never ends: whatever the fuel, it is used up,
    and one query has been issued for each unit of it. *)
Lemma for_pages_infinite (fuel : nat) :
  ∀ (p : Z) (acc : list (Promise PageResult)) (w : World),
    for_pages fuel client uuid filter pageSize sorting Infinity p acc w
    = (Hang, issue (req <$> seqZ p (Z.of_nat fuel)) w).
Proof.
  induction fuel as [|fuel IH]; intros p acc w.
  - cbn. by rewrite issue_nil.
  - cbn [for_pages Number.leb]. unfold bind at 1.
    rewrite fetchReportDataPage_run, IH.
    rewrite (seqZ_cons p (Z.of_nat (S fuel))) by lia.
    replace (Z.pred (Z.of_nat (S fuel))) with (Z.of_nat fuel) by lia.
    replace (Z.succ p) with (p + 1)%Z by lia.
    by rewrite fmap_cons, issue_issue.
Qed.

End Aggregator.

(** ** [Promise.all]: the result does not depend on the completion order *)

Module PromiseAllFacts.
Import PromiseAll.

Section Facts.

Context {A : Type}.
Variable promises : list (Promise A).

Definition value_of (p : Promise A) : option A :=
  match p with
  | Fulfilled a => Some a
  | Rejected _ => None
  end.

(** The array of values once the positions in [seen] have delivered. *)
Definition received (seen : list nat) : list (option A) :=
  imap (fun i p => if bool_decide (i ∈ seen) then value_of p else None)
       promises.

(** The aggregate is still pending and [seen] have delivered their value. *)
Definition pending_after (seen : list nat) (st : state A) : Prop :=
  settled st = None
  ∧ values st = received seen
  ∧ remaining st = length promises - length seen.

Lemma received_lookup (seen : list nat) (i : nat) :
  received seen !! i
  = (fun p => if bool_decide (i ∈ seen) then value_of p else None)
      <$> promises !! i.
Proof. unfold received. by rewrite list_lookup_imap. Qed.

Lemma received_length (seen : list nat) :
  length (received seen) = length promises.
Proof. unfold received. by rewrite length_imap. Qed.

Lemma received_insert (seen : list nat) (i : nat) (a : A) :
  promises !! i = Some (Fulfilled a) →
  <[i := Some a]> (received seen) = received (i :: seen).
Proof.
  intros Hi. apply list_eq. intros j.
  destruct (decide (i = j)) as [<-|Hne].
  - rewrite list_lookup_insert_eq
      by (rewrite received_length; by eapply lookup_lt_Some).
    rewrite received_lookup, Hi. cbn.
    rewrite bool_decide_eq_true_2 by (apply elem_of_cons; by left). done.
  - rewrite list_lookup_insert_ne by done.
    rewrite !received_lookup. destruct (promises !! j) as [p|]; [|done].
    cbn. assert (j ∈ i :: seen ↔ j ∈ seen) as Hiff.
    { rewrite elem_of_cons. split; [intros [?|?]; [congruence|done]|by right]. }
    by rewrite (bool_decide_ext _ _ Hiff).
Qed.

Lemma start_pending :
  promises ≠ [] → pending_after [] (start (length promises)).
Proof.
  intros Hne. unfold pending_after, start. cbn.
  split_and!.
  - destruct promises; done.
  - apply list_eq. intros i. rewrite received_lookup.
    destruct (promises !! i) as [p|] eqn:Hi; cbn.
    + rewrite lookup_replicate_2; [done|]. by eapply lookup_lt_Some.
    + apply lookup_replicate_None. by apply lookup_ge_None.
  - lia.
Qed.

Lemma settle_fulfilled_pending seen st i a :
  pending_after seen st → i ∉ seen →
  promises !! i = Some (Fulfilled a) →
  S (length seen) < length promises →
  pending_after (i :: seen) (settle promises st i).
Proof.
  intros (Hs & Hv & Hr) Hni Hi Hlen. unfold settle.
  rewrite Hs, Hi, Hv, received_lookup, Hi. cbn.
  rewrite bool_decide_eq_false_2 by done.
  unfold pending_after. cbn. rewrite Hr.
  destruct (Nat.pred (length promises - length seen)) eqn:Hp; [lia|].
  split_and!; [done|by apply received_insert|lia].
Qed.

Lemma settle_fulfilled_last seen st i a :
  pending_after seen st → i ∉ seen →
  promises !! i = Some (Fulfilled a) →
  S (length seen) = length promises →
  settled (settle promises st i)
  = Some (Fulfilled (omap id (received (i :: seen)))).
Proof.
  intros (Hs & Hv & Hr) Hni Hi Hlen. unfold settle.
  rewrite Hs, Hi, Hv, received_lookup, Hi. cbn.
  rewrite bool_decide_eq_false_2 by done. cbn. rewrite Hr.
  destruct (Nat.pred (length promises - length seen)) eqn:Hp; [|lia].
  by rewrite (received_insert _ _ _ Hi).
Qed.

Lemma settle_rejected seen st i e :
  pending_after seen st → i ∉ seen →
  promises !! i = Some (Rejected e) →
  settled (settle promises st i) = Some (Rejected e).
Proof.
  intros (Hs & Hv & Hr) Hni Hi. unfold settle.
  rewrite Hs, Hi, Hv, received_lookup, Hi. cbn.
  by rewrite bool_decide_eq_false_2 by done.
Qed.

(** Once settled, the aggregate ignores every later settlement. *)
Lemma foldl_settled (l : list nat) st p :
  settled st = Some p → foldl (settle promises) st l = st.
Proof.
  intros Hs. induction l as [|i l IH]; [done|].
  cbn. unfold settle at 2. by rewrite Hs.
Qed.

(** While values keep arriving and some are still missing, the aggregate
    stays pending. *)
Lemma foldl_pending (l : list nat) :
  ∀ seen st,
    pending_after seen st →
    NoDup (l ++ seen) →
    Forall (fun i => ∃ a, promises !! i = Some (Fulfilled a)) l →
    length (l ++ seen) < length promises →
    pending_after (reverse l ++ seen) (foldl (settle promises) st l).
Proof.
  induction l as [|i l IH]; intros seen st Hp Hnd Hall Hlen; [done|].
  cbn [foldl]. rewrite reverse_cons, <- app_assoc. cbn [app].
  apply Forall_cons in Hall as [[a Hi] Hall].
  cbn in Hnd, Hlen. apply NoDup_cons in Hnd as [Hni Hnd].
  rewrite length_app in Hlen.
  apply IH.
  - eapply settle_fulfilled_pending; [done| |done|lia].
    intros Hi'. apply Hni, elem_of_app. by right.
  - apply NoDup_app in Hnd as (Hl & Hdisj & Hd).
    apply NoDup_app. split_and!; [done| |].
    + intros x Hx [->|Hx']%elem_of_cons.
      * apply Hni, elem_of_app. by left.
      * by apply (Hdisj x).
    + apply NoDup_cons. split; [|done].
      intros Hi'. apply Hni, elem_of_app. by right.
  - done.
  - rewrite length_app. cbn. lia.
Qed.

Lemma split_first_rejected (l : list nat) :
  Forall (fun i => i < length promises) l →
  (∃ i e, i ∈ l ∧ promises !! i = Some (Rejected e)) →
  ∃ l1 j l2 e,
    l = l1 ++ j :: l2
    ∧ Forall (fun i => ∃ a, promises !! i = Some (Fulfilled a)) l1
    ∧ promises !! j = Some (Rejected e).
Proof.
  induction l as [|x l IH]; intros Hlt (i & e & Hin & Hi); [set_solver|].
  apply Forall_cons in Hlt as [Hx Hlt].
  destruct (promises !! x) as [[a|e']|] eqn:Hpx.
  - destruct IH as (l1 & j & l2 & e1 & -> & Hl1 & Hj); [done| |].
    + exists i, e. split; [|done].
      apply elem_of_cons in Hin as [->|Hin]; [congruence|done].
    + exists (x :: l1), j, l2, e1. split_and!; [done| |done].
      apply Forall_cons. eauto.
  - exists [], x, l, e'. by split_and!.
  - apply lookup_ge_None in Hpx. lia.
Qed.

Lemma omap_id_Some (vs : list A) : omap id (Some <$> vs) = vs.
Proof. induction vs as [|v vs IH]; [done|]. cbn. by rewrite IH. Qed.

Lemma order_facts (order : list nat) :
  order ≡ₚ seq 0 (length promises) →
  NoDup order ∧ length order = length promises
  ∧ ∀ i, i ∈ order ↔ i < length promises.
Proof.
  intros Hperm. split_and!.
  - rewrite Hperm. apply NoDup_seq.
  - by rewrite Hperm, length_seq.
  - intros i. rewrite Hperm, elem_of_seq. lia.
Qed.

(** Every promise fulfils: the aggregate resolves with the values in the
    order of the input array, whatever the completion order. *)
Lemma all_fulfilled (order : list nat) (vs : list A) :
  promises = Fulfilled <$> vs →
  order ≡ₚ seq 0 (length promises) →
  all order promises = Some (Fulfilled vs).
Proof.
  intros Hps Hperm. unfold all.
  destruct (order_facts order Hperm) as (Hnd & Hlen & Hin).
  assert (∀ i, i < length promises →
               ∃ a, promises !! i = Some (Fulfilled a)) as Hful.
  { intros i Hlt. apply lookup_lt_is_Some in Hlt as [p Hp].
    rewrite Hp. rewrite Hps in Hp.
    apply list_lookup_fmap_Some in Hp as (a & -> & _). eauto. }
  destruct order as [|j0 l0 _] using rev_ind.
  - cbn in Hlen. rewrite Hps in Hlen |- *.
    destruct vs as [|v vs]; [done|]. cbn in Hlen. lia.
  - rewrite foldl_app. cbn [foldl].
    rewrite length_app in Hlen. cbn in Hlen.
    apply NoDup_app in Hnd as (Hl & Hdisj & _).
    destruct (Hful j0) as [a Ha].
    { apply Hin. apply elem_of_app. right. apply list_elem_of_singleton. done. }
    erewrite settle_fulfilled_last with (seen := reverse l0 ++ []); last first.
    + rewrite app_nil_r, length_reverse. lia.
    + done.
    + rewrite app_nil_r, elem_of_reverse. intros Hj. apply (Hdisj j0 Hj).
      by apply list_elem_of_singleton.
    + apply foldl_pending.
      * apply start_pending. intros Hnil. rewrite Hnil in Hlen. cbn in Hlen. lia.
      * by rewrite app_nil_r.
      * apply Forall_forall. intros i Hi. apply Hful, Hin.
        apply elem_of_app. by left.
      * rewrite app_nil_r. lia.
    + do 2 f_equal.
      transitivity (omap id (Some <$> vs)); [f_equal|apply omap_id_Some].
      apply list_eq. intros i. rewrite received_lookup.
      destruct (promises !! i) as [p|] eqn:Hp.
      * assert (i < length promises) as Hlt by by eapply lookup_lt_Some.
        assert (i ∈ l0 ++ [j0]) as Hi by by apply Hin.
        cbn. rewrite bool_decide_eq_true_2; last first.
        { rewrite app_nil_r. apply elem_of_cons.
          apply elem_of_app in Hi as [Hi|Hi].
          - right. by apply elem_of_reverse.
          - left. by apply list_elem_of_singleton in Hi. }
        rewrite Hps in Hp. rewrite list_lookup_fmap.
        apply list_lookup_fmap_Some in Hp as (b & -> & ->). done.
      * rewrite Hps in Hp. rewrite list_lookup_fmap in Hp.
        rewrite list_lookup_fmap. by destruct (vs !! i).
Qed.

(** Some promise rejects: the aggregate rejects with the error of the
    first rejection in completion order. *)
Lemma all_first_rejection (order : list nat) :
  order ≡ₚ seq 0 (length promises) →
  (∃ i e, promises !! i = Some (Rejected e)) →
  ∃ l1 j l2 e,
    order = l1 ++ j :: l2
    ∧ Forall (fun i => ∃ a, promises !! i = Some (Fulfilled a)) l1
    ∧ promises !! j = Some (Rejected e)
    ∧ all order promises = Some (Rejected e).
Proof.
  intros Hperm (i & e & Hi).
  destruct (order_facts order Hperm) as (Hnd & Hlen & Hin).
  destruct (split_first_rejected order) as (l1 & j & l2 & e1 & Ho & Hl1 & Hj).
  { apply Forall_forall. intros x Hx. by apply Hin. }
  { exists i, e. split; [|done]. apply Hin. by eapply lookup_lt_Some. }
  exists l1, j, l2, e1. split_and!; [done..|].
  unfold all. subst order. rewrite foldl_app. cbn [foldl].
  rewrite length_app in Hlen. cbn in Hlen.
  apply NoDup_app in Hnd as (Hnd1 & Hdisj & _).
  assert (settled (settle promises
            (foldl (settle promises) (start (length promises)) l1) j)
          = Some (Rejected e1)) as Hset; last first.
  { by rewrite (foldl_settled l2 _ _ Hset). }
  eapply settle_rejected with (seen := reverse l1 ++ []); [| |done].
  - apply foldl_pending.
    + apply start_pending. intros Hnil. rewrite Hnil in Hlen. cbn in Hlen. lia.
    + by rewrite app_nil_r.
    + done.
    + rewrite app_nil_r. lia.
  - rewrite app_nil_r, elem_of_reverse. intros Hj1. apply (Hdisj j Hj1).
    apply elem_of_cons. by left.
Qed.

(** In either case the aggregate settles. *)
Lemma all_settles (order : list nat) :
  order ≡ₚ seq 0 (length promises) →
  ∃ p, all order promises = Some p.
Proof.
  intros Hperm.
  destruct (decide (Forall (fun p => is_Some (value_of p)) promises))
    as [Hall|Hex].
  - exists (Fulfilled (omap value_of promises)).
    apply all_fulfilled; [|done].
    clear Hperm. induction promises as [|p ps IH]; [done|].
    apply Forall_cons in Hall as [[a Ha] Hall].
    destruct p as [a'|e]; [|done]. cbn in *. f_equal. by apply IH.
  - apply not_Forall_Exists in Hex; [|apply _].
    apply Exists_exists in Hex as (p & Hp & Hnone).
    apply list_elem_of_lookup in Hp as [i Hi].
    destruct p as [a|e]; [by destruct Hnone; eexists|].
    destruct (all_first_rejection order Hperm) as (_ & _ & _ & e1 & _ & _ & _ & H);
      eauto.
Qed.

End Facts.

End PromiseAllFacts.

(** ** The aggregator, stage by stage *)

Lemma foldl_items (acc : list Json) (pages : list PageResult) :
  foldl (fun allItems page => allItems ++ items page) acc pages
  = acc ++ concat (items <$> pages).
Proof.
  revert acc. induction pages as [|pg pages IH]; intros acc; cbn.
  - by rewrite app_nil_r.
  - by rewrite IH, app_assoc.
Qed.

Section AggregatorFacts.

Variable client : ApolloClient.
Variable uuid : string.
Variable filter : option Json.
Variable pageSize : Z.
Variable sorting : option (list Json).

#[local] Abbreviation req := (request uuid filter pageSize sorting).
#[local] Abbreviation promise_of :=
  (page_promise client uuid filter pageSize sorting).
#[local] Abbreviation fetch fuel order :=
  (fetchReportData fuel order client uuid filter pageSize sorting).

(** The first request fails: the error is thrown and nothing else is asked. *)
Lemma fetchReportData_first_rejected fuel order w e :
  promise_of 1 = Rejected e →
  fetch fuel order w = (Throw e, issue [req 1] w).
Proof.
  intros H1. unfold fetchReportData, bind.
  rewrite fetchReportDataPage_run. rewrite H1. reflexivity.
Qed.

(** The page count does not exceed one: the first page is the result. *)
Lemma fetchReportData_single fuel order w first :
  client (req 1) = Fulfilled (Value first) →
  Number.gtb (Math_ceil (js_div (totalItems (normalise first)) pageSize))
             (Finite 1) = false →
  fetch fuel order w = (Return (normalise first), issue [req 1] w).
Proof.
  intros H1 Hgt. unfold fetchReportData, bind.
  rewrite fetchReportDataPage_run. unfold page_promise.
  rewrite H1. cbn [then_try read_page await ret].
  fold (normalise first). rewrite Hgt. reflexivity.
Qed.

(** More than one page: the remaining pages are all requested, then
    joined. *)
Lemma fetchReportData_many fuel order w first :
  client (req 1) = Fulfilled (Value first) →
  (1 ≤ pageSize)%Z →
  let last := ceiling (totalItems (normalise first)) pageSize in
  (1 < last)%Z →
  Z.to_nat last ≤ fuel →
  fetch fuel order w
  = (join order (normalise first) (promise_of <$> seqZ 2 (last - 1)),
     issue (req <$> seqZ 1 last) w).
Proof.
  intros H1 Hsize last Hlast Hfuel.
  unfold fetchReportData. unfold bind at 1.
  rewrite fetchReportDataPage_run. unfold page_promise at 1.
  rewrite H1. cbn [then_try read_page]. unfold bind at 1. cbn [await ret].
  fold (normalise first).
  rewrite Math_ceil_js_div by done. fold last.
  assert (Number.gtb (Finite last) (Finite 1) = true) as ->.
  { cbn. lia. }
  unfold bind at 1. unfold bind at 1.
  rewrite for_pages_finite by lia. cbn [app].
  replace (last + 1 - 2)%Z with (last - 1)%Z by lia.
  rewrite issue_issue.
  replace ([req 1] ++ (req <$> seqZ 2 (last - 1)))
    with (req <$> seqZ 1 last); last first.
  { rewrite (seqZ_cons 1 last) by lia. cbn. do 3 f_equal; lia. }
  unfold bind at 1. unfold await_all, join.
  destruct (PromiseAll.all order _) as [[rs|e]|]; cbn;
    [|reflexivity|reflexivity].
  unfold ret. by rewrite foldl_items.
Qed.

(** A page size of zero with a positive total: the loop never ends. *)
Lemma fetchReportData_diverges fuel order w first :
  client (req 1) = Fulfilled (Value first) →
  pageSize = 0%Z →
  (0 < totalItems (normalise first))%Z →
  fetch fuel order w
  = (Hang, issue (req <$> seqZ 1 (Z.of_nat fuel + 1)) w).
Proof.
  intros H1 Hsize Hpos.
  unfold fetchReportData. unfold bind at 1.
  rewrite fetchReportDataPage_run. unfold page_promise at 1.
  rewrite H1. cbn [then_try read_page]. unfold bind at 1. cbn [await ret].
  fold (normalise first).
  assert (Math_ceil (js_div (totalItems (normalise first)) pageSize)
          = Infinity) as ->.
  { unfold js_div. rewrite Hsize. apply Z.ltb_lt in Hpos.
    by rewrite Z.eqb_refl, Hpos. }
  cbn [Number.gtb Number.ltb].
  unfold bind at 1. unfold bind at 1.
  rewrite for_pages_infinite, issue_issue.
  rewrite (seqZ_cons 1 (Z.of_nat fuel + 1)) by lia. cbn.
  by replace (Z.pred (Z.of_nat fuel + 1)) with (Z.of_nat fuel) by lia.
Qed.

End AggregatorFacts.

(** ** Claims about the executor *)

(** C6, as amended.  For every successful response that carries a
    [reportData] object, [fetchReportDataPage] returns a record whose item
    sequence and total are both defined: an absent or [null] [items] becomes
    the empty sequence, an absent or [null] [totalItems] becomes 0, and a
    value that is present is returned as it is. *)
Theorem fetchReportDataPage_normalises_missing_fields
    (client : ApolloClient) (uuid : string) (filter : option Json)
    (pagination : PaginationInput) (sorting : option (list Json))
    (w : World) (response : ReportData) :
  client (mkVariables uuid filter pagination sorting)
  = Fulfilled (Value response) →
  ∃ result : PageResult,
    (fetchReportDataPage client uuid filter pagination sorting w).1
    = Return (Fulfilled result)
    ∧ (data_items response = Undefined ∨ data_items response = Null →
       items result = [])
    ∧ (data_totalItems response = Undefined ∨ data_totalItems response = Null →
       totalItems result = 0%Z)
    ∧ (∀ l, data_items response = Value l → items result = l)
    ∧ (∀ t, data_totalItems response = Value t → totalItems result = t).
Proof.
  intros Hresp. eexists. split.
  - unfold fetchReportDataPage, bind, client_query. cbn.
    rewrite Hresp. reflexivity.
  - cbn. split_and!.
    + by intros [->| ->].
    + by intros [->| ->].
    + by intros l ->.
    + intros t ->. cbn. unfold truthy_number.
      by destruct (Z.eqb_spec t 0) as [->|].
Qed.

Lemma fetchReportDataPage_normalises_missing_fields_witness :
  let client : ApolloClient :=
    fun _ => Fulfilled (Value (mkReportData Undefined Null)) in
  client (mkVariables "report" None (mkPagination 1 100) None)
  = Fulfilled (Value (mkReportData Undefined Null))
  ∧ ∃ result : PageResult,
      (fetchReportDataPage client "report" None (mkPagination 1 100) None
         initial_world).1 = Return (Fulfilled result)
      ∧ items result = [] ∧ totalItems result = 0%Z.
Proof.
  intros client. split; [reflexivity|].
  destruct (fetchReportDataPage_normalises_missing_fields
              client "report" None (mkPagination 1 100) None initial_world
              (mkReportData Undefined Null) eq_refl)
    as (result & Hrun & Hitems & Htotal & _).
  exists result. split_and!; [exact Hrun| |].
  - apply Hitems. by left.
  - apply Htotal. by right.
Defined.

(** C6, as stated, fails: a successful response whose [reportData] is
    [null] yields no record at all; reading [items] throws a [TypeError]
    and the returned promise is rejected. *)
Lemma fetchReportDataPage_null_reportData_throws :
  let client : ApolloClient := fun _ => Fulfilled Null in
  (fetchReportDataPage client "report" None (mkPagination 1 100) None
     initial_world).1
  = Return (Rejected (TypeError
              "Cannot read properties of null (reading 'items')"))
  ∧ ¬ ∃ result : PageResult,
        (fetchReportDataPage client "report" None (mkPagination 1 100) None
           initial_world).1 = Return (Fulfilled result).
Proof.
  cbn. split; [reflexivity|]. intros [result Hresult]. discriminate Hresult.
Qed.

(** ** Claims about the requests that the aggregator issues *)

(** The queries issued by a run, for a page size of at least one. *)
Lemma fetchReportData_requests fuel order client uuid filter pageSize sorting
    w first :
  client (request uuid filter pageSize sorting 1) = Fulfilled (Value first) →
  (1 ≤ pageSize)%Z →
  Z.to_nat (page_count (totalItems (normalise first)) pageSize) ≤ fuel →
  requests (fetchReportData fuel order client uuid filter pageSize sorting w).2
  = requests w
    ++ (request uuid filter pageSize sorting
          <$> seqZ 1 (page_count (totalItems (normalise first)) pageSize)).
Proof.
  intros H1 Hsize Hfuel. unfold page_count in *.
  destruct (Z_lt_le_dec 1 (ceiling (totalItems (normalise first)) pageSize))
    as [Hmany|Hone].
  - rewrite Z.max_r in * by lia.
    by rewrite (fetchReportData_many _ _ _ _ _ _ _ _ _ H1 Hsize Hmany Hfuel).
  - rewrite Z.max_l by lia.
    rewrite (fetchReportData_single _ _ _ _ _ _ _ _ _ H1); [done|].
    rewrite Math_ceil_js_div by done.
    unfold Number.gtb, Number.ltb. by apply Z.ltb_ge.
Qed.

Lemma filter_none {A : Type} (P : A → Prop) `{!∀ x, Decision (P x)}
    (l : list A) :
  Forall (fun x => ¬ P x) l → base.filter P l = [].
Proof.
  induction 1 as [|x l Hx _ IH]; [done|]. by rewrite filter_cons_False.
Qed.

(** C1. For every page size of at least one and every total reported by the
    first page (in particular every total that is not negative), the
    aggregator issues [max(1, ceil(totalItems / pageSize))] queries: they
    carry the pages 1, 2, ... up to that number, in this order, so exactly
    one of them carries page 1. *)
Theorem fetchReportData_issues_page_count_requests
    (fuel : nat) (order : list nat) (client : ApolloClient) (uuid : string)
    (filter : option Json) (pageSize : Z) (sorting : option (list Json))
    (first : ReportData) :
  (1 ≤ pageSize)%Z →
  client (request uuid filter pageSize sorting 1) = Fulfilled (Value first) →
  (0 ≤ totalItems (normalise first))%Z →
  Z.to_nat (page_count (totalItems (normalise first)) pageSize) ≤ fuel →
  let issued :=
    requests (fetchReportData fuel order client uuid filter pageSize sorting
                initial_world).2 in
  let pages := (fun v => page (var_pagination v)) <$> issued in
  length issued
  = Z.to_nat (Z.max 1 (ceiling (totalItems (normalise first)) pageSize))
  ∧ pages = 1%Z :: seqZ 2 (ceiling (totalItems (normalise first)) pageSize - 1)
  ∧ length (base.filter (fun p => p = 1%Z) pages) = 1
  ∧ Forall (fun v => v = request uuid filter pageSize sorting
                           (page (var_pagination v))) issued.
Proof.
  intros Hsize H1 Htotal Hfuel issued pages.
  assert (issued
          = request uuid filter pageSize sorting
              <$> seqZ 1 (page_count (totalItems (normalise first)) pageSize))
    as Hissued.
  { unfold issued. by rewrite (fetchReportData_requests _ _ _ _ _ _ _ _ _ H1). }
  assert (pages = seqZ 1 (page_count (totalItems (normalise first)) pageSize))
    as Hpages.
  { unfold pages. rewrite Hissued, <- list_fmap_compose.
    rewrite <- (list_fmap_id (seqZ 1 _)) at 2. by apply list_fmap_ext. }
  pose proof (ceiling_nonneg _ _ Hsize Htotal) as Hc.
  assert (seqZ 1 (page_count (totalItems (normalise first)) pageSize)
          = 1%Z :: seqZ 2 (ceiling (totalItems (normalise first)) pageSize - 1))
    as Hseq.
  { unfold page_count. rewrite seqZ_cons by lia. f_equal.
    destruct (Z.max_spec 1 (ceiling (totalItems (normalise first)) pageSize))
      as [[Hlt ->]|[Hle ->]].
    - by replace (Z.pred (ceiling (totalItems (normalise first)) pageSize))
        with (ceiling (totalItems (normalise first)) pageSize - 1)%Z by lia.
    - by rewrite !seqZ_nil by lia. }
  split_and!.
  - rewrite Hissued, length_fmap, length_seqZ. done.
  - by rewrite Hpages.
  - rewrite Hpages, Hseq. rewrite filter_cons_True by done. cbn. f_equal.
    rewrite filter_none; [done|].
    apply Forall_forall. intros p Hp%elem_of_seqZ. lia.
  - rewrite Hissued. apply Forall_fmap, Forall_forall. by intros p _.
Qed.

Lemma fetchReportData_issues_page_count_requests_witness :
  let client : ApolloClient :=
    fun _ => Fulfilled (Value (mkReportData (Value []) (Value 250%Z))) in
  let issued :=
    requests (fetchReportData 3 [0; 1] client "report" None 100 None
                initial_world).2 in
  ((1 ≤ 100)%Z
   ∧ client (request "report" None 100 None 1)
     = Fulfilled (Value (mkReportData (Value []) (Value 250%Z)))
   ∧ (0 ≤ 250)%Z
   ∧ Z.to_nat (page_count 250 100) ≤ 3)
  ∧ length issued = 3
  ∧ (fun v => page (var_pagination v)) <$> issued = [1; 2; 3]%Z.
Proof.
  intros client issued.
  assert ((1 ≤ 100)%Z) as Hsize by lia.
  assert ((0 ≤ 250)%Z) as Htotal by lia.
  assert (Z.to_nat (page_count 250 100) ≤ 3) as Hfuel by (vm_compute; lia).
  split; [by split_and!|].
  destruct (fetchReportData_issues_page_count_requests
              3 [0; 1] client "report" None 100 None
              (mkReportData (Value []) (Value 250%Z))
              Hsize eq_refl Htotal Hfuel) as (Hlen & Hpages & _).
  split; [exact Hlen|exact Hpages].
Defined.

(** C4, as amended.  When the first page reports a total of zero (or
    reports none), whatever the page size, the aggregator issues exactly one
    query and returns the item sequence of the first page as it is, with a
    total of zero; the sequence is empty exactly when that page carried no
    items. *)
Theorem fetchReportData_zero_total_returns_first_page
    (fuel : nat) (order : list nat) (client : ApolloClient) (uuid : string)
    (filter : option Json) (pageSize : Z) (sorting : option (list Json))
    (w : World) (first : ReportData) :
  client (request uuid filter pageSize sorting 1) = Fulfilled (Value first) →
  totalItems (normalise first) = 0%Z →
  fetchReportData fuel order client uuid filter pageSize sorting w
  = (Return (mkPageResult (js_or truthy_array (data_items first) []) 0),
     issue [request uuid filter pageSize sorting 1] w).
Proof.
  intros H1 Hzero.
  rewrite (fetchReportData_single _ _ _ _ _ _ _ _ _ H1).
  - unfold normalise in *. cbn in Hzero. by rewrite Hzero.
  - rewrite Hzero. apply gtb_total_0.
Qed.

Lemma fetchReportData_zero_total_returns_first_page_witness :
  let first := mkReportData (Value [JString "row"]) Undefined in
  let client : ApolloClient := fun _ => Fulfilled (Value first) in
  (client (request "report" None 100 None 1) = Fulfilled (Value first)
   ∧ totalItems (normalise first) = 0%Z)
  ∧ fetchReportData 0 [] client "report" None 100 None initial_world
    = (Return (mkPageResult [JString "row"] 0),
       issue [request "report" None 100 None 1] initial_world).
Proof.
  intros first client. split; [by split|].
  exact (fetchReportData_zero_total_returns_first_page
           0 [] client "report" None 100 None initial_world first
           eq_refl eq_refl).
Defined.

(** C4, as stated, fails: a first page that reports a total of zero and
    still carries an item yields one query and a result that is not
    empty. *)
Lemma fetchReportData_zero_total_not_empty :
  let first := mkReportData (Value [JString "row"]) (Value 0%Z) in
  let client : ApolloClient := fun _ => Fulfilled (Value first) in
  let run := fetchReportData 1 [] client "report" None 100 None initial_world in
  totalItems (normalise first) = 0%Z
  ∧ length (requests run.2) = 1
  ∧ ∃ result, run.1 = Return result ∧ items result ≠ [].
Proof.
  cbn. split_and!; [reflexivity..|].
  eexists. split; [reflexivity|discriminate].
Qed.

(** C9. Whenever the total reported by the first page does not exceed the
    page size (a zero or negative total included), the aggregator issues no
    further query and returns the first page's item sequence together with
    that total, whatever the length of the sequence; the total is the
    reported number itself, negative numbers included.  The page size is
    assumed not to be negative, which the data model guarantees. *)
Theorem fetchReportData_total_within_first_page
    (fuel : nat) (order : list nat) (client : ApolloClient) (uuid : string)
    (filter : option Json) (pageSize : Z) (sorting : option (list Json))
    (w : World) (first : ReportData) :
  client (request uuid filter pageSize sorting 1) = Fulfilled (Value first) →
  (0 ≤ pageSize)%Z →
  (totalItems (normalise first) ≤ pageSize)%Z →
  fetchReportData fuel order client uuid filter pageSize sorting w
  = (Return (mkPageResult (js_or truthy_array (data_items first) [])
                          (totalItems (normalise first))),
     issue [request uuid filter pageSize sorting 1] w)
  ∧ (∀ t, data_totalItems first = Value t → totalItems (normalise first) = t)
  ∧ (data_totalItems first = Undefined ∨ data_totalItems first = Null →
     totalItems (normalise first) = 0%Z).
Proof.
  intros H1 Hsize Hle. split_and!.
  - rewrite (fetchReportData_single _ _ _ _ _ _ _ _ _ H1); [done|].
    by apply gtb_total_le_size.
  - intros t Ht. cbn. rewrite Ht. cbn. unfold truthy_number.
    by destruct (Z.eqb_spec t 0) as [->|].
  - cbn. by intros [-> | ->].
Qed.

Lemma fetchReportData_total_within_first_page_witness :
  let first :=
    mkReportData (Value [JString "a"; JString "b"]) (Value (-3)%Z) in
  let client : ApolloClient := fun _ => Fulfilled (Value first) in
  (client (request "report" None 100 None 1) = Fulfilled (Value first)
   ∧ (0 ≤ 100)%Z
   ∧ (totalItems (normalise first) ≤ 100)%Z)
  ∧ fetchReportData 0 [] client "report" None 100 None initial_world
    = (Return (mkPageResult [JString "a"; JString "b"] (-3)),
       issue [request "report" None 100 None 1] initial_world).
Proof.
  intros first client.
  assert ((0 ≤ 100)%Z) as Hsize by lia.
  assert ((totalItems (normalise first) ≤ 100)%Z) as Hle by (cbn; lia).
  split; [by split_and!|].
  exact (proj1 (fetchReportData_total_within_first_page
                  0 [] client "report" None 100 None initial_world first
                  eq_refl Hsize Hle)).
Defined.

(** With a negative page size the quotient of two negative numbers is
    positive, and further pages are requested although the total does not
    exceed the page size. *)
Example fetchReportData_negative_pageSize :
  let client : ApolloClient :=
    fun _ => Fulfilled (Value (mkReportData (Value []) (Value (-5)%Z))) in
  length (requests (fetchReportData 5 [0; 1; 2; 3] client "report" None (-1)
                      None initial_world).2) = 5.
Proof. reflexivity. Qed.

(** ** Claims about the joined result *)

Section Joined.

Variable client : ApolloClient.
Variable uuid : string.
Variable filter : option Json.
Variable pageSize : Z.
Variable sorting : option (list Json).

#[local] Abbreviation req := (request uuid filter pageSize sorting).
#[local] Abbreviation promise_of :=
  (page_promise client uuid filter pageSize sorting).

Lemma length_remaining (last : Z) :
  length (promise_of <$> seqZ 2 (last - 1)) = Z.to_nat (Z.max 1 last) - 1.
Proof. rewrite length_fmap, length_seqZ. lia. Qed.

(** When every remaining page is answered, the join returns the concatenation
    in page order. *)
Lemma join_all_fulfilled order firstPage (responses : Z → ReportData) last :
  (∀ p, (2 ≤ p ≤ last)%Z → client (req p) = Fulfilled (Value (responses p))) →
  order ≡ₚ seq 0 (Z.to_nat (Z.max 1 last) - 1) →
  join order firstPage (promise_of <$> seqZ 2 (last - 1))
  = Return (mkPageResult
              (items firstPage
               ++ concat ((fun p => items (normalise (responses p)))
                            <$> seqZ 2 (last - 1)))
              (totalItems firstPage)).
Proof.
  intros Hresp Hperm. unfold join.
  rewrite (PromiseAllFacts.all_fulfilled _ order
             ((fun p => normalise (responses p)) <$> seqZ 2 (last - 1))).
  - by rewrite <- list_fmap_compose.
  - rewrite <- list_fmap_compose. apply list_fmap_ext.
    intros i p Hp. apply lookup_seqZ in Hp as [-> Hi].
    unfold page_promise. cbn. by rewrite Hresp by lia.
  - by rewrite length_remaining.
Qed.

(** When some remaining page is refused, the join throws the error of one
    of the refused pages. *)
Lemma join_rejected order firstPage last p e :
  (2 ≤ p ≤ last)%Z →
  promise_of p = Rejected e →
  order ≡ₚ seq 0 (Z.to_nat (Z.max 1 last) - 1) →
  ∃ p' e', (2 ≤ p' ≤ last)%Z ∧ promise_of p' = Rejected e'
           ∧ join order firstPage (promise_of <$> seqZ 2 (last - 1)) = Throw e'.
Proof.
  intros Hp He Hperm. unfold join.
  destruct (PromiseAllFacts.all_first_rejection
              (promise_of <$> seqZ 2 (last - 1)) order)
    as (_ & j & _ & e' & _ & _ & Hj & ->).
  - by rewrite length_remaining.
  - exists (Z.to_nat (p - 2)), e. rewrite list_lookup_fmap.
    rewrite lookup_seqZ_lt by lia. cbn.
    replace (2 + Z.of_nat (Z.to_nat (p - 2)))%Z with p by lia.
    by rewrite He.
  - rewrite list_lookup_fmap in Hj.
    destruct (seqZ 2 (last - 1) !! j) as [p'|] eqn:Hp'; [|done].
    apply lookup_seqZ in Hp' as [-> Hlt]. cbn in Hj.
    exists (2 + Z.of_nat j)%Z, e'. split_and!; [lia..| |done].
    congruence.
Qed.

End Joined.

(** Every page is answered: the run returns the complete result. *)
Lemma fetchReportData_complete
    (fuel : nat) (order : list nat) (client : ApolloClient) (uuid : string)
    (filter : option Json) (pageSize : Z) (sorting : option (list Json))
    (w : World) (responses : Z → ReportData) :
  let N := page_count (totalItems (normalise (responses 1%Z))) pageSize in
  (1 ≤ pageSize)%Z →
  (∀ p, (1 ≤ p ≤ N)%Z →
        client (request uuid filter pageSize sorting p)
        = Fulfilled (Value (responses p))) →
  Z.to_nat N ≤ fuel →
  order ≡ₚ seq 0 (Z.to_nat N - 1) →
  (fetchReportData fuel order client uuid filter pageSize sorting w).1
  = Return (mkPageResult
              (concat ((fun p => items (normalise (responses p)))
                         <$> seqZ 1 N))
              (totalItems (normalise (responses 1%Z)))).
Proof.
  intros N Hsize Hresp Hfuel Hperm. unfold page_count in N.
  assert (client (request uuid filter pageSize sorting 1)
          = Fulfilled (Value (responses 1%Z))) as H1 by (apply Hresp; lia).
  destruct (Z_lt_le_dec 1 (ceiling (totalItems (normalise (responses 1%Z)))
                                   pageSize)) as [Hmany|Hone].
  - assert (N = ceiling (totalItems (normalise (responses 1%Z))) pageSize)
      as HN by lia.
    rewrite (fetchReportData_many _ _ _ _ _ _ _ _ _ H1 Hsize Hmany)
      by (rewrite <- HN; exact Hfuel).
    cbn [fst]. rewrite <- HN.
    rewrite (join_all_fulfilled _ _ _ _ _ _ _ responses).
    + rewrite (seqZ_cons 1 N) by lia. cbn [fmap list_fmap concat].
      by replace (Z.pred N) with (N - 1)%Z by lia.
    + intros p Hp. apply Hresp. lia.
    + by replace (Z.max 1 N) with N by lia.
  - assert (N = 1%Z) as -> by lia.
    rewrite (fetchReportData_single _ _ _ _ _ _ _ _ _ H1).
    + change (seqZ 1 1) with [1%Z]. cbn. by rewrite app_nil_r.
    + rewrite Math_ceil_js_div by done.
      unfold Number.gtb, Number.ltb. by apply Z.ltb_ge.
Qed.

(** The page fetch fails exactly when the query is refused or the
    response carries no [reportData] object. *)
Lemma page_promise_rejected (client : ApolloClient) (uuid : string)
    (filter : option Json) (pageSize : Z) (sorting : option (list Json))
    (p : Z) (e : Error) :
  page_promise client uuid filter pageSize sorting p = Rejected e
  ↔ client (request uuid filter pageSize sorting p) = Rejected e
    ∨ (client (request uuid filter pageSize sorting p) = Fulfilled Null
       ∧ e = TypeError "Cannot read properties of null (reading 'items')")
    ∨ (client (request uuid filter pageSize sorting p) = Fulfilled Undefined
       ∧ e = TypeError
               "Cannot read properties of undefined (reading 'items')").
Proof.
  unfold page_promise.
  destruct (client (request uuid filter pageSize sorting p))
    as [[| |r]|e0]; cbn.
  - split; [intros [= <-]; right; right; by split|].
    intros [H|[[H ->]|[H ->]]]; try discriminate H. reflexivity.
  - split; [intros [= <-]; right; left; by split|].
    intros [H|[[H ->]|[H ->]]]; try discriminate H. reflexivity.
  - split; [discriminate|].
    intros [H|[[H _]|[H _]]]; discriminate H.
  - split; [intros [= <-]; by left|].
    intros [[= ->]|[[H _]|[H _]]]; [done|discriminate H..].
Qed.

(** Each page in [l] is answered with an object, or the fetch of one of
    them fails. *)
Lemma answered_or_refused (client : ApolloClient) (uuid : string)
    (filter : option Json) (pageSize : Z) (sorting : option (list Json))
    (l : list Z) :
  (∀ p, p ∈ l →
        ∃ r, client (request uuid filter pageSize sorting p)
             = Fulfilled (Value r))
  ∨ (∃ p e, p ∈ l
            ∧ page_promise client uuid filter pageSize sorting p = Rejected e).
Proof.
  induction l as [|q l [IH|(p & e & Hp & He)]].
  - left. by intros p Hp%elem_of_nil.
  - unfold page_promise.
    destruct (client (request uuid filter pageSize sorting q))
      as [[| |r]|e] eqn:Hq.
    + right. eexists q, _. split; [by apply elem_of_cons; left|].
      unfold page_promise. by rewrite Hq.
    + right. eexists q, _. split; [by apply elem_of_cons; left|].
      unfold page_promise. by rewrite Hq.
    + left. intros p [->|Hp]%elem_of_cons; eauto.
    + right. exists q, e. split; [by apply elem_of_cons; left|].
      unfold page_promise. by rewrite Hq.
  - right. exists p, e. split; [by apply elem_of_cons; right|done].
Qed.

(** C2. Whatever the answers to the pages, and in whatever order the
    concurrent requests complete, the item sequence returned by
    [fetchReportData] is the concatenation of the items of page 1, page 2,
    ..., page N in ascending page order. *)
Theorem fetchReportData_concatenates_in_page_order
    (fuel : nat) (order : list nat) (client : ApolloClient) (uuid : string)
    (filter : option Json) (pageSize : Z) (sorting : option (list Json))
    (w : World) (responses : Z → ReportData) :
  let N := page_count (totalItems (normalise (responses 1%Z))) pageSize in
  (1 ≤ pageSize)%Z →
  (∀ p, (1 ≤ p ≤ N)%Z →
        client (request uuid filter pageSize sorting p)
        = Fulfilled (Value (responses p))) →
  Z.to_nat N ≤ fuel →
  order ≡ₚ seq 0 (Z.to_nat N - 1) →
  (fetchReportData fuel order client uuid filter pageSize sorting w).1
  = Return (mkPageResult
              (concat ((fun p => items (normalise (responses p)))
                         <$> seqZ 1 N))
              (totalItems (normalise (responses 1%Z)))).
Proof. apply fetchReportData_complete. Qed.

Lemma fetchReportData_concatenates_in_page_order_witness :
  let responses : Z → ReportData :=
    fun p => mkReportData (Value [JNumber p; JNumber (p + 10)]) (Value 250%Z) in
  let client : ApolloClient :=
    fun v => Fulfilled (Value (responses (page (var_pagination v)))) in
  let N := page_count (totalItems (normalise (responses 1%Z))) 100 in
  ((1 ≤ 100)%Z
   ∧ (∀ p, (1 ≤ p ≤ N)%Z →
           client (request "report" None 100 None p) = Fulfilled (Value (responses p)))
   ∧ Z.to_nat N ≤ 3
   ∧ [1; 0] ≡ₚ seq 0 (Z.to_nat N - 1))
  ∧ (fetchReportData 3 [1; 0] client "report" None 100 None initial_world).1
    = Return (mkPageResult
                [JNumber 1; JNumber 11; JNumber 2; JNumber 12;
                 JNumber 3; JNumber 13]%Z 250).
Proof.
  intros responses client N.
  assert ((1 ≤ 100)%Z) as Hsize by lia.
  assert (∀ p, (1 ≤ p ≤ N)%Z →
               client (request "report" None 100 None p)
               = Fulfilled (Value (responses p))) as Hresp by (intros p _; reflexivity).
  assert (Z.to_nat N ≤ 3) as Hfuel by (vm_compute; lia).
  assert ([1; 0] ≡ₚ seq 0 (Z.to_nat N - 1)) as Hperm
    by (vm_compute; apply perm_swap).
  split; [by split_and!|].
  exact (fetchReportData_concatenates_in_page_order
           3 [1; 0] client "report" None 100 None initial_world responses
           Hsize Hresp Hfuel Hperm).
Defined.

(** C3. If any page request fails (the query is refused, or its response
    carries no [reportData] object to read), [fetchReportData] as a whole
    fails with the error of a failed page request, unchanged, and returns no
    item list: a failure of the first page is thrown at once, in particular
    the error with which the client refuses the query; a failure among the
    concurrent requests for the pages from 2 on is thrown by the join, in
    whatever order the requests complete.  The caller gets either such an
    error or the complete result that covers every page, never a part of
    it. *)
Theorem fetchReportData_fails_as_a_whole
    (fuel : nat) (order : list nat) (client : ApolloClient) (uuid : string)
    (filter : option Json) (pageSize : Z) (sorting : option (list Json))
    (w : World) :
  let run := fetchReportData fuel order client uuid filter pageSize sorting w in
  (∀ e, client (request uuid filter pageSize sorting 1) = Rejected e →
        run.1 = Throw e)
  ∧ (∀ e, page_promise client uuid filter pageSize sorting 1 = Rejected e →
          run.1 = Throw e)
  ∧ (∀ first p e,
       client (request uuid filter pageSize sorting 1)
       = Fulfilled (Value first) →
       let N := page_count (totalItems (normalise first)) pageSize in
       (1 ≤ pageSize)%Z →
       Z.to_nat N ≤ fuel →
       order ≡ₚ seq 0 (Z.to_nat N - 1) →
       (2 ≤ p ≤ N)%Z →
       page_promise client uuid filter pageSize sorting p = Rejected e →
       ∃ p' e',
         (2 ≤ p' ≤ N)%Z
         ∧ page_promise client uuid filter pageSize sorting p' = Rejected e'
         ∧ run.1 = Throw e')
  ∧ (∀ first,
       client (request uuid filter pageSize sorting 1)
       = Fulfilled (Value first) →
       let N := page_count (totalItems (normalise first)) pageSize in
       (1 ≤ pageSize)%Z →
       Z.to_nat N ≤ fuel →
       order ≡ₚ seq 0 (Z.to_nat N - 1) →
       (∃ p e,
          (2 ≤ p ≤ N)%Z
          ∧ page_promise client uuid filter pageSize sorting p = Rejected e
          ∧ run.1 = Throw e)
       ∨ (∃ responses : Z → ReportData,
            (∀ p, (1 ≤ p ≤ N)%Z →
                  client (request uuid filter pageSize sorting p)
                  = Fulfilled (Value (responses p)))
            ∧ run.1
              = Return (mkPageResult
                          (concat ((fun p => items (normalise (responses p)))
                                     <$> seqZ 1 N))
                          (totalItems (normalise first))))).
Proof.
  intros run.
  assert (∀ first p e,
       client (request uuid filter pageSize sorting 1)
       = Fulfilled (Value first) →
       let N := page_count (totalItems (normalise first)) pageSize in
       (1 ≤ pageSize)%Z →
       Z.to_nat N ≤ fuel →
       order ≡ₚ seq 0 (Z.to_nat N - 1) →
       (2 ≤ p ≤ N)%Z →
       page_promise client uuid filter pageSize sorting p = Rejected e →
       ∃ p' e',
         (2 ≤ p' ≤ N)%Z
         ∧ page_promise client uuid filter pageSize sorting p' = Rejected e'
         ∧ run.1 = Throw e') as Hrejected.
  { intros first p e H1 N Hsize Hfuel Hperm Hp He. unfold page_count in N.
    assert (N = ceiling (totalItems (normalise first)) pageSize) as HN by lia.
    unfold run.
    rewrite (fetchReportData_many _ _ _ _ _ _ _ _ _ H1 Hsize)
      by (rewrite <- ?HN; lia).
    cbn [fst]. rewrite <- HN.
    apply (join_rejected _ _ _ _ _ _ _ _ p e); [lia|done|].
    by replace (Z.max 1 N) with N by lia. }
  split_and!.
  - intros e H1. unfold run.
    rewrite (fetchReportData_first_rejected _ _ _ _ _ _ _ _ e); [done|].
    unfold page_promise. by rewrite H1.
  - intros e H1. unfold run.
    by rewrite (fetchReportData_first_rejected _ _ _ _ _ _ _ _ e H1).
  - exact Hrejected.
  - intros first H1 N Hsize Hfuel Hperm.
    destruct (answered_or_refused client uuid filter pageSize sorting
                (seqZ 2 (N - 1))) as [Hall|(p & e & Hp & He)].
    + right.
      set (responses := fun p =>
             match client (request uuid filter pageSize sorting p) with
             | Fulfilled (Value r) => r
             | _ => first
             end).
      assert (responses 1%Z = first) as Hfirst
        by (unfold responses; by rewrite H1).
      assert (∀ p, (1 ≤ p ≤ N)%Z →
                client (request uuid filter pageSize sorting p)
                = Fulfilled (Value (responses p))) as Hresp.
      { intros p Hp. unfold responses.
        destruct (Z.eq_dec p 1%Z) as [->|Hne]; [by rewrite H1|].
        destruct (Hall p) as [r ->]; [|done]. apply elem_of_seqZ. lia. }
      exists responses. split; [exact Hresp|].
      pose proof (fetchReportData_complete fuel order client uuid filter
                    pageSize sorting w responses) as Hcomplete.
      rewrite Hfirst in Hcomplete. by apply Hcomplete.
    + left. apply elem_of_seqZ in Hp.
      apply (Hrejected first p e H1 Hsize Hfuel Hperm); [lia|done].
Qed.

Lemma fetchReportData_fails_as_a_whole_witness :
  let boom := mkError "page 3 is not available" None in
  let client : ApolloClient :=
    fun v =>
      if (page (var_pagination v) =? 3)%Z then Rejected boom
      else Fulfilled (Value (mkReportData
                               (Value [JNumber (page (var_pagination v))])
                               (Value 250%Z))) in
  let first := mkReportData (Value [JNumber 1]) (Value 250%Z) in
  let N := page_count (totalItems (normalise first)) 100 in
  (client (request "report" None 100 None 1) = Fulfilled (Value first)
   ∧ (1 ≤ 100)%Z ∧ Z.to_nat N ≤ 3 ∧ [0; 1] ≡ₚ seq 0 (Z.to_nat N - 1)
   ∧ (2 ≤ 3 ≤ N)%Z
   ∧ page_promise client "report" None 100 None 3 = Rejected boom)
  ∧ ∃ p' e',
      (2 ≤ p' ≤ N)%Z
      ∧ page_promise client "report" None 100 None p' = Rejected e'
      ∧ (fetchReportData 3 [0; 1] client "report" None 100 None
           initial_world).1 = Throw e'.
Proof.
  intros boom client first N.
  assert ((1 ≤ 100)%Z) as Hsize by lia.
  assert (Z.to_nat N ≤ 3) as Hfuel by (vm_compute; lia).
  assert ([0; 1] ≡ₚ seq 0 (Z.to_nat N - 1)) as Hperm by (vm_compute; done).
  assert ((2 ≤ 3 ≤ N)%Z) as Hp by (vm_compute; split; discriminate).
  split; [by split_and!|].
  exact (proj1 (proj2 (proj2 (fetchReportData_fails_as_a_whole
                         3 [0; 1] client "report" None 100 None initial_world)))
               first 3%Z boom eq_refl Hsize Hfuel Hperm Hp eq_refl).
Defined.

(** C8. For every page size of at least one and every total reported by the
    first page, the page loop is bounded: with fuel for
    [max(1, ceil(totalItems / pageSize))] iterations the aggregator comes to
    an end, with a result or an error, once every request is answered, and
    has issued at most that many queries.  The bound on the page size is a
    precondition that the code does not check: with a page size of zero and
    a positive total, no amount of fuel suffices and the number of queries
    grows with the fuel. *)
Theorem fetchReportData_terminates
    (order : list nat) (client : ApolloClient) (uuid : string)
    (filter : option Json) (pageSize : Z) (sorting : option (list Json))
    (w : World) (first : ReportData) :
  client (request uuid filter pageSize sorting 1) = Fulfilled (Value first) →
  let bound := Z.max 1 (ceiling (totalItems (normalise first)) pageSize) in
  ((1 ≤ pageSize)%Z →
   order ≡ₚ seq 0 (Z.to_nat bound - 1) →
   ∀ fuel, Z.to_nat bound ≤ fuel →
     let run :=
       fetchReportData fuel order client uuid filter pageSize sorting w in
     ((∃ result, run.1 = Return result) ∨ (∃ e, run.1 = Throw e))
     ∧ length (requests run.2) ≤ length (requests w) + Z.to_nat bound)
  ∧ (pageSize = 0%Z →
     (0 < totalItems (normalise first))%Z →
     ∀ fuel,
       let run :=
         fetchReportData fuel order client uuid filter pageSize sorting w in
       run.1 = Hang
       ∧ length (requests run.2) = length (requests w) + S fuel).
Proof.
  intros H1 bound. split.
  - intros Hsize Hperm fuel Hfuel run. split.
    + unfold run.
      destruct (Z_lt_le_dec 1 (ceiling (totalItems (normalise first)) pageSize))
        as [Hmany|Hone].
      * rewrite (fetchReportData_many _ _ _ _ _ _ _ _ _ H1 Hsize Hmany) by lia.
        cbn [fst]. unfold join.
        destruct (PromiseAllFacts.all_settles
                    (page_promise client uuid filter pageSize sorting
                       <$> seqZ 2 (ceiling (totalItems (normalise first))
                                           pageSize - 1)) order)
          as [[rs|e] ->]; eauto.
        by rewrite length_remaining.
      * rewrite (fetchReportData_single _ _ _ _ _ _ _ _ _ H1); [eauto|].
        rewrite Math_ceil_js_div by done.
        unfold Number.gtb, Number.ltb. by apply Z.ltb_ge.
    + unfold run.
      rewrite (fetchReportData_requests _ _ _ _ _ _ _ _ _ H1 Hsize Hfuel).
      rewrite length_app, length_fmap, length_seqZ. done.
  - intros Hsize Hpos fuel run. unfold run.
    rewrite (fetchReportData_diverges _ _ _ _ _ _ _ _ _ H1 Hsize Hpos).
    split; [done|]. cbn.
    rewrite length_app, length_fmap, length_seqZ. lia.
Qed.

Lemma fetchReportData_terminates_witness :
  let first := mkReportData (Value [JNumber 1]) (Value 250%Z) in
  let client : ApolloClient := fun _ => Fulfilled (Value first) in
  (client (request "report" None 100 None 1) = Fulfilled (Value first)
   ∧ (1 ≤ 100)%Z
   ∧ [1; 0] ≡ₚ seq 0 (Z.to_nat (Z.max 1 (ceiling 250 100)) - 1)
   ∧ Z.to_nat (Z.max 1 (ceiling 250 100)) ≤ 3)
  ∧ (let run :=
       fetchReportData 3 [1; 0] client "report" None 100 None initial_world in
     ((∃ result, run.1 = Return result) ∨ (∃ e, run.1 = Throw e))
     ∧ length (requests run.2) ≤ 0 + 3)
  ∧ (client (request "report" None 0 None 1) = Fulfilled (Value first)
     ∧ (0 < totalItems (normalise first))%Z)
  ∧ (let run :=
       fetchReportData 7 [1; 0] client "report" None 0 None initial_world in
     run.1 = Hang ∧ length (requests run.2) = 0 + 8).
Proof.
  intros first client.
  assert ((1 ≤ 100)%Z) as Hsize by lia.
  assert ([1; 0] ≡ₚ seq 0 (Z.to_nat (Z.max 1 (ceiling 250 100)) - 1)) as Hperm
    by (vm_compute; apply perm_swap).
  assert (Z.to_nat (Z.max 1 (ceiling 250 100)) ≤ 3) as Hfuel
    by (vm_compute; lia).
  assert ((0 < totalItems (normalise first))%Z) as Hpos by (cbn; lia).
  split; [by split_and!|].
  split.
  { exact (proj1 (fetchReportData_terminates
                    [1; 0] client "report" None 100 None initial_world first
                    eq_refl) Hsize Hperm 3 Hfuel). }
  split; [by split|].
  exact (proj2 (fetchReportData_terminates
                  [1; 0] client "report" None 0 None initial_world first
                  eq_refl) eq_refl Hpos 7).
Defined.

(** ** The totals of the later pages are not used *)

Module PromiseAllMap.
Import PromiseAll.

Section Map.

Context {A B : Type}.
Variable f : A → B.







End Map.

End PromiseAllMap.


Section Unfold.

Variable client : ApolloClient.
Variable uuid : string.
Variable filter : option Json.
Variable pageSize : Z.
Variable sorting : option (list Json).

#[local] Abbreviation req := (request uuid filter pageSize sorting).

(** The aggregator after a first page that was answered, for any page
    size and any fuel. *)
Lemma fetchReportData_unfold fuel order w first :
  client (req 1) = Fulfilled (Value first) →
  fetchReportData fuel order client uuid filter pageSize sorting w
  = let firstPage := normalise first in
    let totalPages := Math_ceil (js_div (totalItems firstPage) pageSize) in
    if Number.gtb totalPages (Finite 1) then
      match for_pages fuel client uuid filter pageSize sorting totalPages 2 []
                      (issue [req 1] w) with
      | (Return pagePromises, w') => (join order firstPage pagePromises, w')
      | (Throw e, w') => (Throw e, w')
      | (Exit code, w') => (Exit code, w')
      | (Hang, w') => (Hang, w')
      end
    else (Return firstPage, issue [req 1] w).
Proof.
  intros H1. unfold fetchReportData. unfold bind at 1.
  rewrite fetchReportDataPage_run. unfold page_promise at 1.
  rewrite H1. cbn [then_try read_page]. unfold bind at 1. cbn [await ret].
  fold (normalise first). cbv zeta.
  destruct (Number.gtb _ _); [|reflexivity].
  unfold bind at 1. unfold bind at 1.
  destruct (for_pages _ _ _ _ _ _ _ _ _ _) as [[ps|e|c|] w']; try reflexivity.
  unfold bind at 1. unfold await_all, join.
  destruct (PromiseAll.all order ps) as [[rs|e]|]; cbn;
    [|reflexivity|reflexivity].
  unfold ret. by rewrite foldl_items.
Qed.

End Unfold.


Section LaterTotals.

Variables client client' : ApolloClient.
Variable uuid : string.
Variable filter : option Json.
Variable pageSize : Z.
Variable sorting : option (list Json).

#[local] Abbreviation req := (request uuid filter pageSize sorting).




End LaterTotals.



(** * Further properties of the aggregator *)

Section Shape.

Variable client : ApolloClient.
Variable uuid : string.
Variable filter : option Json.
Variable pageSize : Z.
Variable sorting : option (list Json).

#[local] Abbreviation req := (request uuid filter pageSize sorting).
#[local] Abbreviation promise_of :=
  (page_promise client uuid filter pageSize sorting).

(** Whatever the bound and the fuel, the loop asks for consecutive pages
    and either returns their promises or hangs; how many pages it asks for
    depends neither on the promises collected so far nor on the world. *)
Lemma for_pages_shape (fuel : nat) (totalPages : number) :
  ∀ p : Z, ∃ (k : nat) (ends : bool),
    ∀ (acc : list (Promise PageResult)) (w : World),
      for_pages fuel client uuid filter pageSize sorting totalPages p acc w
      = ((if ends
          then Return (acc ++ (promise_of <$> seqZ p (Z.of_nat k)))
          else Hang),
         issue (req <$> seqZ p (Z.of_nat k)) w).
Proof.
  induction fuel as [|fuel IH]; intros p.
  - exists 0, false. intros acc w. cbn. by rewrite issue_nil.
  - cbn [for_pages]. destruct (Number.leb (Finite p) totalPages).
    + destruct (IH (p + 1)%Z) as (k & ends & Hloop).
      exists (S k), ends. intros acc w.
      unfold bind at 1. rewrite fetchReportDataPage_run, Hloop.
      rewrite (seqZ_cons p (Z.of_nat (S k))) by lia.
      replace (Z.pred (Z.of_nat (S k))) with (Z.of_nat k) by lia.
      replace (Z.succ p) with (p + 1)%Z by lia.
      rewrite !fmap_cons, issue_issue, <- app_assoc. reflexivity.
    + exists 0, true. intros acc w. cbn. by rewrite app_nil_r, issue_nil.
Qed.

Lemma join_not_exit order firstPage pagePromises code :
  join order firstPage pagePromises ≠ Exit code.
Proof.
  unfold join. by destruct (PromiseAll.all order pagePromises) as [[rs|e]|].
Qed.

(** A run of the aggregator: a completion that is not an exit, and the
    queries for the pages 1 to [k + 1], whatever the world it starts in. *)
Lemma fetchReportData_shape (fuel : nat) (order : list nat) :
  ∃ (k : nat) (c : completion PageResult),
    (∀ code, c ≠ Exit code)
    ∧ ∀ w, fetchReportData fuel order client uuid filter pageSize sorting w
           = (c, issue (req <$> seqZ 1 (Z.of_nat (S k))) w).
Proof.
  destruct (client (req 1)) as [[| |first]|e] eqn:H1.
  1, 2, 4:
    eexists 0, (Throw _); (split; [done|]); intros w;
    apply fetchReportData_first_rejected; unfold page_promise;
    rewrite H1; reflexivity.
  destruct (Number.gtb
                (Math_ceil (js_div (totalItems (normalise first)) pageSize))
                (Finite 1)) eqn:Hgt.
    + destruct (for_pages_shape fuel
                  (Math_ceil (js_div (totalItems (normalise first)) pageSize))
                  2) as (k & ends & Hloop).
      exists k,
        (if ends
         then join order (normalise first)
                   (promise_of <$> seqZ 2 (Z.of_nat k))
         else Hang).
      split.
      { intros code. destruct ends; [apply join_not_exit|done]. }
      intros w. rewrite (fetchReportData_unfold _ _ _ _ _ _ _ _ _ H1).
      cbv zeta. rewrite Hgt, Hloop, issue_issue.
      rewrite (seqZ_cons 1 (Z.of_nat (S k))) by lia.
      replace (Z.pred (Z.of_nat (S k))) with (Z.of_nat k) by lia.
      by destruct ends.
    + exists 0, (Return (normalise first)). split; [done|]. intros w.
      by rewrite (fetchReportData_single _ _ _ _ _ _ _ _ _ H1 Hgt).
Qed.

End Shape.

(** X1. Whatever the answers of the remote end, the page size, the fuel
    and the completion order, [fetchReportData] writes nothing to the
    console, never ends the process, and asks for the pages 1, 2, ..., k of
    the same report, with the same filter, page size and sorting, for some
    k of at least one: no page is asked twice and none is skipped. *)
Theorem fetchReportData_asks_consecutive_pages
    (fuel : nat) (order : list nat) (client : ApolloClient) (uuid : string)
    (filter : option Json) (pageSize : Z) (sorting : option (list Json))
    (w : World) :
  let run := fetchReportData fuel order client uuid filter pageSize sorting w in
  stdout run.2 = stdout w
  ∧ stderr run.2 = stderr w
  ∧ (∀ code, run.1 ≠ Exit code)
  ∧ ∃ k : nat,
      requests run.2
      = requests w
        ++ (request uuid filter pageSize sorting <$> seqZ 1 (Z.of_nat (S k))).
Proof.
  intros run.
  destruct (fetchReportData_shape client uuid filter pageSize sorting
              fuel order) as (k & c & Hc & Hrun).
  unfold run. rewrite Hrun. cbn. split_and!; [done..|eauto].
Qed.

(** The result of [fetchReportData] does not depend on the world it is
    called in: the run from any world is the run from the initial world,
    with its queries appended to those already issued. *)
Lemma fetchReportData_frame
    (fuel : nat) (order : list nat) (client : ApolloClient) (uuid : string)
    (filter : option Json) (pageSize : Z) (sorting : option (list Json))
    (w : World) :
  fetchReportData fuel order client uuid filter pageSize sorting w
  = let run := fetchReportData fuel order client uuid filter pageSize sorting
                 initial_world in
    (run.1, issue (requests run.2) w).
Proof.
  destruct (fetchReportData_shape client uuid filter pageSize sorting
              fuel order) as (k & c & Hc & Hrun).
  cbv zeta. by rewrite !Hrun.
Qed.

(** X2. If the request for the first page fails, its error is thrown and
    no other page is asked for: the failed query is the only one issued. *)
Theorem fetchReportData_first_failure_stops
    (fuel : nat) (order : list nat) (client : ApolloClient) (uuid : string)
    (filter : option Json) (pageSize : Z) (sorting : option (list Json))
    (w : World) (e : Error) :
  client (request uuid filter pageSize sorting 1) = Rejected e →
  let run := fetchReportData fuel order client uuid filter pageSize sorting w in
  run.1 = Throw e
  ∧ requests run.2 = requests w ++ [request uuid filter pageSize sorting 1].
Proof.
  intros H1 run. unfold run.
  rewrite (fetchReportData_first_rejected _ _ _ _ _ _ _ _ e); [done|].
  unfold page_promise. by rewrite H1.
Qed.

Lemma fetchReportData_first_failure_stops_witness :
  let e := mkError "Network error" None in
  let client : ApolloClient := fun _ => Rejected e in
  client (request "report" None 100 None 1) = Rejected e
  ∧ (let run :=
       fetchReportData 5 [0; 1] client "report" None 100 None initial_world in
     run.1 = Throw e ∧ requests run.2 = [request "report" None 100 None 1]).
Proof.
  intros e client. split; [reflexivity|].
  exact (fetchReportData_first_failure_stops
           5 [0; 1] client "report" None 100 None initial_world e eq_refl).
Defined.

(** X3. With a negative page size and a total that is not negative the
    quotient is not positive: only the first page is asked for and it is
    returned as it is. *)
Theorem fetchReportData_negative_pageSize_single_page
    (fuel : nat) (order : list nat) (client : ApolloClient) (uuid : string)
    (filter : option Json) (pageSize : Z) (sorting : option (list Json))
    (w : World) (first : ReportData) :
  client (request uuid filter pageSize sorting 1) = Fulfilled (Value first) →
  (pageSize < 0)%Z →
  (0 ≤ totalItems (normalise first))%Z →
  fetchReportData fuel order client uuid filter pageSize sorting w
  = (Return (normalise first), issue [request uuid filter pageSize sorting 1] w).
Proof.
  intros H1 Hsize Htotal.
  apply (fetchReportData_single _ _ _ _ _ _ _ _ _ H1).
  unfold js_div. destruct (Z.eqb_spec pageSize 0) as [->|_]; [lia|].
  unfold Math_ceil, Number.gtb, Number.ltb. apply Z.ltb_ge.
  pose proof (Z.div_mod (- totalItems (normalise first)) pageSize
                ltac:(lia)) as Hdm.
  pose proof (Z.mod_neg_bound (- totalItems (normalise first)) pageSize
                ltac:(lia)) as Hb.
  nia.
Qed.

Lemma fetchReportData_negative_pageSize_single_page_witness :
  let first := mkReportData (Value [JString "a"]) (Value 250%Z) in
  let client : ApolloClient := fun _ => Fulfilled (Value first) in
  (client (request "report" None (-100) None 1) = Fulfilled (Value first)
   ∧ (-100 < 0)%Z ∧ (0 ≤ totalItems (normalise first))%Z)
  ∧ fetchReportData 5 [] client "report" None (-100) None initial_world
    = (Return (mkPageResult [JString "a"] 250),
       issue [request "report" None (-100) None 1] initial_world).
Proof.
  intros first client.
  assert ((-100 < 0)%Z) as Hsize by lia.
  assert ((0 ≤ totalItems (normalise first))%Z) as Htotal by (cbn; lia).
  split; [by split_and!|].
  exact (fetchReportData_negative_pageSize_single_page
           5 [] client "report" None (-100) None initial_world first
           eq_refl Hsize Htotal).
Defined.

(** X4. The pages asked for hold the reported total and none of them is
    superfluous: with a page size of at least one and a total of at least
    one, the number [n] of queries satisfies
    [(n - 1) * pageSize < totalItems <= n * pageSize]. *)
Theorem fetchReportData_pages_cover_total
    (fuel : nat) (order : list nat) (client : ApolloClient) (uuid : string)
    (filter : option Json) (pageSize : Z) (sorting : option (list Json))
    (first : ReportData) :
  client (request uuid filter pageSize sorting 1) = Fulfilled (Value first) →
  (1 ≤ pageSize)%Z →
  (1 ≤ totalItems (normalise first))%Z →
  Z.to_nat (page_count (totalItems (normalise first)) pageSize) ≤ fuel →
  let n :=
    Z.of_nat (length (requests
      (fetchReportData fuel order client uuid filter pageSize sorting
         initial_world).2)) in
  ((n - 1) * pageSize < totalItems (normalise first) ≤ n * pageSize)%Z.
Proof.
  intros H1 Hsize Htotal Hfuel n. unfold n.
  rewrite (fetchReportData_requests _ _ _ _ _ _ _ _ _ H1 Hsize Hfuel).
  cbn [requests initial_world app]. rewrite length_fmap, length_seqZ.
  pose proof (ceiling_spec (totalItems (normalise first)) pageSize Hsize) as Hc.
  unfold page_count.
  assert (1 ≤ ceiling (totalItems (normalise first)) pageSize)%Z by nia.
  rewrite Z.max_r by done. rewrite Z2Nat.id by lia. done.
Qed.

Lemma fetchReportData_pages_cover_total_witness :
  let first := mkReportData (Value []) (Value 200%Z) in
  let client : ApolloClient := fun _ => Fulfilled (Value first) in
  (client (request "report" None 100 None 1) = Fulfilled (Value first)
   ∧ (1 ≤ 100)%Z ∧ (1 ≤ totalItems (normalise first))%Z
   ∧ Z.to_nat (page_count (totalItems (normalise first)) 100) ≤ 2)
  ∧ (let n :=
       Z.of_nat (length (requests
         (fetchReportData 2 [0] client "report" None 100 None
            initial_world).2)) in
     ((n - 1) * 100 < 200 ≤ n * 100)%Z).
Proof.
  intros first client.
  assert ((1 ≤ 100)%Z) as Hsize by lia.
  assert ((1 ≤ totalItems (normalise first))%Z) as Htotal by (cbn; lia).
  assert (Z.to_nat (page_count (totalItems (normalise first)) 100) ≤ 2)
    as Hfuel by (vm_compute; lia).
  split; [by split_and!|].
  exact (fetchReportData_pages_cover_total
           2 [0] client "report" None 100 None first
           eq_refl Hsize Htotal Hfuel).
Defined.

(** ** A remote end that pages consistently *)

Lemma length_concat_const {A : Type} (f : Z → list A) (s : Z) (l : list Z) :
  Forall (fun p => Z.of_nat (length (f p)) = s) l →
  Z.of_nat (length (concat (f <$> l))) = (Z.of_nat (length l) * s)%Z.
Proof.
  induction 1 as [|p l Hp _ IH]; [done|].
  cbn [fmap list_fmap concat length]. rewrite length_app. lia.
Qed.

(** X5. When the remote end pages consistently (every page is answered and
    page [p] carries [min(pageSize, totalItems - (p - 1) * pageSize)] items),
    the result holds exactly [totalItems] items. *)
Theorem fetchReportData_consistent_pages_give_total
    (fuel : nat) (order : list nat) (client : ApolloClient) (uuid : string)
    (filter : option Json) (pageSize : Z) (sorting : option (list Json))
    (w : World) (responses : Z → ReportData) :
  let total := totalItems (normalise (responses 1%Z)) in
  let N := page_count total pageSize in
  (1 ≤ pageSize)%Z →
  (0 ≤ total)%Z →
  (∀ p, (1 ≤ p ≤ N)%Z →
        client (request uuid filter pageSize sorting p)
        = Fulfilled (Value (responses p))) →
  (∀ p, (1 ≤ p ≤ N)%Z →
        Z.of_nat (length (items (normalise (responses p))))
        = Z.min pageSize (total - (p - 1) * pageSize)) →
  Z.to_nat N ≤ fuel →
  order ≡ₚ seq 0 (Z.to_nat N - 1) →
  ∃ result,
    (fetchReportData fuel order client uuid filter pageSize sorting w).1
    = Return result
    ∧ totalItems result = total
    ∧ Z.of_nat (length (items result)) = totalItems result.
Proof.
  intros total N Hsize Htotal Hresp Hlen Hfuel Hperm.
  eexists. split; [by apply fetchReportData_complete|].
  split; [done|]. cbn [items totalItems]. fold total. fold N.
  pose proof (ceiling_spec total pageSize Hsize) as Hc.
  assert (1 ≤ N)%Z as HN1 by (unfold N, page_count; lia).
  assert ((N - 1) * pageSize < total ∨ (N = 1 ∧ total = 0))%Z as Hlow.
  { unfold N, page_count in *.
    destruct (Z.max_spec 1 (ceiling total pageSize)) as [[? ->]|[? ->]]; nia. }
  assert (total ≤ N * pageSize)%Z as Hhigh.
  { unfold N, page_count in *.
    destruct (Z.max_spec 1 (ceiling total pageSize)) as [[? ->]|[? ->]]; nia. }
  replace N with ((N - 1) + 1)%Z at 1 by lia.
  rewrite seqZ_app by lia. rewrite fmap_app, concat_app, length_app.
  rewrite Nat2Z.inj_add.
  rewrite (length_concat_const _ pageSize).
  - rewrite length_seqZ. change (seqZ (1 + (N - 1)) 1) with [(1 + (N - 1))%Z].
    cbn [fmap list_fmap concat]. rewrite app_nil_r.
    rewrite Hlen by lia. nia.
  - apply Forall_forall. intros p Hp%elem_of_seqZ.
    rewrite Hlen by lia. nia.
Qed.

Lemma fetchReportData_consistent_pages_give_total_witness :
  let responses : Z → ReportData :=
    fun p => mkReportData
               (Value (if (p =? 1)%Z then [JNumber 1; JNumber 2]
                       else [JNumber 3]))
               (Value 3%Z) in
  let client : ApolloClient :=
    fun v => Fulfilled (Value (responses (page (var_pagination v)))) in
  let total := totalItems (normalise (responses 1%Z)) in
  let N := page_count total 2 in
  ((1 ≤ 2)%Z ∧ (0 ≤ total)%Z
   ∧ (∀ p, (1 ≤ p ≤ N)%Z →
           client (request "report" None 2 None p) = Fulfilled (Value (responses p)))
   ∧ (∀ p, (1 ≤ p ≤ N)%Z →
           Z.of_nat (length (items (normalise (responses p))))
           = Z.min 2 (total - (p - 1) * 2))
   ∧ Z.to_nat N ≤ 2
   ∧ [0] ≡ₚ seq 0 (Z.to_nat N - 1))
  ∧ ∃ result,
      (fetchReportData 2 [0] client "report" None 2 None initial_world).1
      = Return result
      ∧ totalItems result = 3%Z
      ∧ Z.of_nat (length (items result)) = totalItems result.
Proof.
  intros responses client total N.
  assert ((1 ≤ 2)%Z) as Hsize by lia.
  assert ((0 ≤ total)%Z) as Htotal by (cbn; lia).
  assert (∀ p, (1 ≤ p ≤ N)%Z →
               client (request "report" None 2 None p)
               = Fulfilled (Value (responses p))) as Hresp by (intros p _; reflexivity).
  assert (∀ p, (1 ≤ p ≤ N)%Z →
               Z.of_nat (length (items (normalise (responses p))))
               = Z.min 2 (total - (p - 1) * 2)) as Hlen.
  { intros p Hp. change N with 2%Z in Hp. change total with 3%Z.
    assert (p = 1 ∨ p = 2)%Z as [-> | ->] by lia; reflexivity. }
  assert (Z.to_nat N ≤ 2) as Hfuel by (vm_compute; lia).
  assert ([0] ≡ₚ seq 0 (Z.to_nat N - 1)) as Hperm by (vm_compute; done).
  split; [by split_and!|].
  exact (fetchReportData_consistent_pages_give_total
           2 [0] client "report" None 2 None initial_world responses
           Hsize Htotal Hresp Hlen Hfuel Hperm).
Defined.

(** ** The join when the requests do not all complete *)

Module PromiseAllPartial.
Import PromiseAll PromiseAllFacts.

Section Partial.

Context {A : Type}.
Variable promises : list (Promise A).

Lemma NoDup_bounded_length (l : list nat) (n : nat) :
  NoDup l → Forall (fun i => i < n) l → length l ≤ n.
Proof.
  intros Hnd Hlt.
  assert (length l ≤ length (seq 0 n)) as Hle; [|by rewrite length_seq in Hle].
  apply submseteq_length, NoDup_submseteq; [done|].
  intros i Hi. apply elem_of_seq.
  rewrite Forall_forall in Hlt. specialize (Hlt i Hi). lia.
Qed.

Lemma fulfilled_bounded (l : list nat) :
  Forall (fun i => ∃ a, promises !! i = Some (Fulfilled a)) l →
  Forall (fun i => i < length promises) l.
Proof.
  intros Hall. eapply Forall_impl; [exact Hall|].
  intros i [a Hi]. by eapply lookup_lt_Some.
Qed.

(** While distinct promises fulfil and one is still missing, the
    aggregate stays pending. *)
Lemma all_pending (order : list nat) :
  NoDup order →
  Forall (fun i => ∃ a, promises !! i = Some (Fulfilled a)) order →
  length order < length promises →
  all order promises = None.
Proof.
  intros Hnd Hall Hlen. unfold all.
  destruct (foldl_pending promises order [] (start (length promises)))
    as (Hs & _).
  - apply start_pending. intros Hnil. rewrite Hnil in Hlen. cbn in Hlen. lia.
  - by rewrite app_nil_r.
  - done.
  - by rewrite app_nil_r.
  - done.
Qed.

(** A rejection that arrives after distinct fulfilments settles the
    aggregate, whatever happens afterwards. *)
Lemma all_rejected_early (l1 l2 : list nat) (j : nat) (e : Error) :
  NoDup (l1 ++ [j]) →
  Forall (fun i => ∃ a, promises !! i = Some (Fulfilled a)) l1 →
  promises !! j = Some (Rejected e) →
  all (l1 ++ j :: l2) promises = Some (Rejected e).
Proof.
  intros Hnd Hall Hj. unfold all. rewrite foldl_app. cbn [foldl].
  assert (length (l1 ++ [j]) ≤ length promises) as Hlen.
  { apply NoDup_bounded_length; [done|]. apply Forall_app. split.
    - by apply fulfilled_bounded.
    - apply Forall_singleton. by eapply lookup_lt_Some. }
  rewrite length_app in Hlen. cbn in Hlen.
  apply NoDup_app in Hnd as (Hnd1 & Hdisj & _).
  assert (settled (settle promises
            (foldl (settle promises) (start (length promises)) l1) j)
          = Some (Rejected e)) as Hset; last first.
  { by rewrite (foldl_settled promises l2 _ _ Hset). }
  eapply settle_rejected with (seen := reverse l1 ++ []); [| |done].
  - apply foldl_pending.
    + apply start_pending. intros Hnil. rewrite Hnil in Hlen. cbn in Hlen. lia.
    + by rewrite app_nil_r.
    + done.
    + rewrite app_nil_r. lia.
  - rewrite app_nil_r, elem_of_reverse. intros Hj1. apply (Hdisj j Hj1).
    by apply list_elem_of_singleton.
Qed.

End Partial.

End PromiseAllPartial.

Section Incomplete.

Variable client : ApolloClient.
Variable uuid : string.
Variable filter : option Json.
Variable pageSize : Z.
Variable sorting : option (list Json).

#[local] Abbreviation req := (request uuid filter pageSize sorting).
#[local] Abbreviation promise_of :=
  (page_promise client uuid filter pageSize sorting).

(** Position [i] of the array of promises belongs to page [i + 2]. *)
Lemma lookup_remaining (last : Z) (i : nat) :
  (Z.of_nat i < last - 1)%Z →
  (promise_of <$> seqZ 2 (last - 1)) !! i
  = Some (then_try (client (req (2 + Z.of_nat i))) read_page).
Proof.
  intros Hi. rewrite list_lookup_fmap, lookup_seqZ_lt by done. done.
Qed.

Lemma remaining_fulfilled (last : Z) (l : list nat) :
  Forall (fun i => (Z.of_nat i < last - 1)%Z
                   ∧ ∃ r, client (req (2 + Z.of_nat i))
                          = Fulfilled (Value r)) l →
  Forall (fun i => ∃ a, (promise_of <$> seqZ 2 (last - 1)) !! i
                        = Some (Fulfilled a)) l.
Proof.
  intros Hall. eapply Forall_impl; [exact Hall|].
  intros i (Hi & r & Hr). exists (normalise r).
  by rewrite lookup_remaining, Hr.
Qed.

End Incomplete.

(** X6. The first rejection wins: as soon as the request for a page fails
    after requests for other pages have succeeded, the aggregator throws
    the error of that page, whatever the later requests do and whether they
    complete at all. *)
Theorem fetchReportData_first_rejection_wins
    (fuel : nat) (l1 l2 : list nat) (j : nat) (client : ApolloClient)
    (uuid : string) (filter : option Json) (pageSize : Z)
    (sorting : option (list Json)) (w : World) (first : ReportData)
    (e : Error) :
  let last := ceiling (totalItems (normalise first)) pageSize in
  client (request uuid filter pageSize sorting 1) = Fulfilled (Value first) →
  (1 ≤ pageSize)%Z →
  Z.to_nat last ≤ fuel →
  NoDup (l1 ++ [j]) →
  Forall (fun i =>
            (Z.of_nat i < last - 1)%Z
            ∧ ∃ r, client (request uuid filter pageSize sorting
                             (2 + Z.of_nat i)) = Fulfilled (Value r)) l1 →
  (Z.of_nat j < last - 1)%Z →
  client (request uuid filter pageSize sorting (2 + Z.of_nat j)) = Rejected e →
  (fetchReportData fuel (l1 ++ j :: l2) client uuid filter pageSize sorting
     w).1 = Throw e.
Proof.
  intros last H1 Hsize Hfuel Hnd Hall Hj He.
  rewrite (fetchReportData_many _ _ _ _ _ _ _ _ _ H1 Hsize) by (fold last; lia).
  cbn [fst]. fold last. unfold join.
  rewrite (PromiseAllPartial.all_rejected_early _ l1 l2 j e); [done|done| |].
  - by apply remaining_fulfilled.
  - by rewrite lookup_remaining, He.
Qed.

Lemma fetchReportData_first_rejection_wins_witness :
  let slow := mkError "page 2 timed out" None in
  let broken := mkError "page 4 is broken" None in
  let first := mkReportData (Value [JNumber 1]) (Value 400%Z) in
  let client : ApolloClient :=
    fun v =>
      if (page (var_pagination v) =? 2)%Z then Rejected slow
      else if (page (var_pagination v) =? 4)%Z then Rejected broken
      else Fulfilled (Value first) in
  let last := ceiling (totalItems (normalise first)) 100 in
  (client (request "report" None 100 None 1) = Fulfilled (Value first)
   ∧ (1 ≤ 100)%Z
   ∧ Z.to_nat last ≤ 4
   ∧ NoDup ([1] ++ [2])
   ∧ Forall (fun i =>
               (Z.of_nat i < last - 1)%Z
               ∧ ∃ r, client (request "report" None 100 None (2 + Z.of_nat i))
                      = Fulfilled (Value r)) [1]
   ∧ (Z.of_nat 2 < last - 1)%Z
   ∧ client (request "report" None 100 None (2 + Z.of_nat 2)) = Rejected broken)
  ∧ (fetchReportData 4 ([1] ++ 2 :: [0]) client "report" None 100 None
       initial_world).1 = Throw broken.
Proof.
  intros slow broken first client last.
  assert ((1 ≤ 100)%Z) as Hsize by lia.
  assert (Z.to_nat last ≤ 4) as Hfuel by (vm_compute; lia).
  assert (NoDup ([1] ++ [2])) as Hnd
    by (apply (bool_decide_unpack _); vm_compute; exact I).
  assert (Forall (fun i =>
               (Z.of_nat i < last - 1)%Z
               ∧ ∃ r, client (request "report" None 100 None (2 + Z.of_nat i))
                      = Fulfilled (Value r)) [1]) as Hall.
  { apply Forall_singleton. split; [reflexivity|]. by exists first. }
  assert ((Z.of_nat 2 < last - 1)%Z) as Hj by reflexivity.
  split; [by split_and!|].
  exact (fetchReportData_first_rejection_wins
           4 [1] [0] 2 client "report" None 100 None initial_world first broken
           eq_refl Hsize Hfuel Hnd Hall Hj eq_refl).
Defined.

(** X7. No partial result and no timeout: while the requests that have
    completed have all succeeded and at least one request for a remaining
    page has not completed, the aggregator does not return. *)
Theorem fetchReportData_waits_for_every_page
    (fuel : nat) (order : list nat) (client : ApolloClient)
    (uuid : string) (filter : option Json) (pageSize : Z)
    (sorting : option (list Json)) (w : World) (first : ReportData) :
  let last := ceiling (totalItems (normalise first)) pageSize in
  client (request uuid filter pageSize sorting 1) = Fulfilled (Value first) →
  (1 ≤ pageSize)%Z →
  Z.to_nat last ≤ fuel →
  NoDup order →
  Forall (fun i =>
            (Z.of_nat i < last - 1)%Z
            ∧ ∃ r, client (request uuid filter pageSize sorting
                             (2 + Z.of_nat i)) = Fulfilled (Value r)) order →
  (Z.of_nat (length order) < last - 1)%Z →
  (fetchReportData fuel order client uuid filter pageSize sorting w).1 = Hang.
Proof.
  intros last H1 Hsize Hfuel Hnd Hall Hlen.
  rewrite (fetchReportData_many _ _ _ _ _ _ _ _ _ H1 Hsize) by (fold last; lia).
  cbn [fst]. fold last. unfold join.
  rewrite PromiseAllPartial.all_pending; [done|done| |].
  - by apply remaining_fulfilled.
  - rewrite length_fmap, length_seqZ. lia.
Qed.

Lemma fetchReportData_waits_for_every_page_witness :
  let first := mkReportData (Value [JNumber 1]) (Value 300%Z) in
  let client : ApolloClient := fun _ => Fulfilled (Value first) in
  let last := ceiling (totalItems (normalise first)) 100 in
  (client (request "report" None 100 None 1) = Fulfilled (Value first)
   ∧ (1 ≤ 100)%Z
   ∧ Z.to_nat last ≤ 3
   ∧ NoDup [1]
   ∧ Forall (fun i =>
               (Z.of_nat i < last - 1)%Z
               ∧ ∃ r, client (request "report" None 100 None (2 + Z.of_nat i))
                      = Fulfilled (Value r)) [1]
   ∧ (Z.of_nat (length [1]) < last - 1)%Z)
  ∧ (fetchReportData 3 [1] client "report" None 100 None initial_world).1
    = Hang.
Proof.
  intros first client last.
  assert ((1 ≤ 100)%Z) as Hsize by lia.
  assert (Z.to_nat last ≤ 3) as Hfuel by (vm_compute; lia).
  assert (NoDup [1]) as Hnd by apply NoDup_singleton.
  assert (Forall (fun i =>
               (Z.of_nat i < last - 1)%Z
               ∧ ∃ r, client (request "report" None 100 None (2 + Z.of_nat i))
                      = Fulfilled (Value r)) [1]) as Hall.
  { apply Forall_singleton. split; [reflexivity|]. by exists first. }
  assert ((Z.of_nat (length [1]) < last - 1)%Z) as Hlen by reflexivity.
  split; [by split_and!|].
  exact (fetchReportData_waits_for_every_page
           3 [1] client "report" None 100 None initial_world first
           eq_refl Hsize Hfuel Hnd Hall Hlen).
Defined.

(** * Further properties of the program *)

(** Whether the handler prints the extensions of a GraphQL error: they are
    present and truthy. *)
Definition prints_extensions (gqlError : GraphQLError) : bool :=
  match gql_extensions gqlError with
  | Some extensions => truthy_json extensions
  | None => false
  end.

(** The two progress lines on standard output. *)
Definition progress_lines (reportUuid : string) : list string :=
  [ "Fetching report data..." +:+ newline;
    "Fetching report data for UUID: " +:+ reportUuid +:+ "..." +:+ newline ].

Section ProgramFacts.

Variable transport : option string → string → ApolloClient.
Variable JSON_stringify : Json → string.
Variable JSON_stringify_indent : list Json → string.
Variable inspect : Error → string.
Variable fuel : nat.
Variable order : list nat.

(** The lines that the handler of [main] prints for one GraphQL error, at
    position [index] of the list, and for a whole error. *)
Definition gql_lines (index : nat) (gqlError : GraphQLError) : list string :=
  ("  GraphQL Error [" +:+ pretty (index + 1)%nat +:+ "]: "
   +:+ gql_message gqlError)
  :: match gql_extensions gqlError with
     | Some extensions =>
         if truthy_json extensions
         then ["    Extensions: " +:+ JSON_stringify extensions]
         else []
     | None => []
     end.

Definition error_lines (error : Error) : list string :=
  ((newline +:+ "Fatal error:") +:+ " " +:+ message error)
  :: match graphQLErrors error with
     | Some errors => concat (imap gql_lines errors)
     | None => []
     end.

(** The lines on standard output after a successful fetch. *)
Definition report_lines (result : PageResult) : list string :=
  [ newline +:+ "=== Report Data ===";
    JSON_stringify_indent (items result);
    "Total items: " +:+ pretty (totalItems result);
    "Items returned: " +:+ pretty (length (items result));
    newline +:+ "=== Items ===" ].

Lemma forEach_from_gql (errors : list GraphQLError) :
  ∀ (index : nat) (w : World),
    forEach_from index
      (fun gqlError index =>
         console_error ("  GraphQL Error [" +:+ pretty (index + 1)%nat +:+ "]: "
                        +:+ gql_message gqlError) ;;;
         match gql_extensions gqlError with
         | Some extensions =>
             if truthy_json extensions then
               console_error ("    Extensions: " +:+ JSON_stringify extensions)
             else ret tt
         | None => ret tt
         end) errors w
    = (Return tt,
       mkWorld (requests w) (stdout w)
               (stderr w
                ++ concat (imap (fun i => gql_lines (index + i)) errors))).
Proof.
  induction errors as [|g errors IH]; intros index w.
  - cbn. rewrite app_nil_r. by destruct w.
  - cbn [forEach_from imap concat]. unfold bind at 1.
    assert (∀ w0,
      (console_error ("  GraphQL Error [" +:+ pretty (index + 1)%nat +:+ "]: "
                      +:+ gql_message g) ;;;
       match gql_extensions g with
       | Some extensions =>
           if truthy_json extensions then
             console_error ("    Extensions: " +:+ JSON_stringify extensions)
           else ret tt
       | None => ret tt
       end) w0
      = (Return tt,
         mkWorld (requests w0) (stdout w0)
                 (stderr w0 ++ gql_lines (index + 0) g))) as Hbody.
    { intros w0. unfold gql_lines. rewrite Nat.add_0_r.
      destruct (gql_extensions g) as [ext|]; cbn; [|reflexivity].
      destruct (truthy_json ext); [|reflexivity].
      unfold console_error. cbn. by rewrite <- app_assoc. }
    rewrite Hbody, IH. cbn [requests stdout stderr].
    rewrite <- app_assoc. do 5 f_equal.
    apply imap_ext. intros i x _. cbn. f_equal. lia.
Qed.

Lemma report_error_run (error : Error) (w : World) :
  report_error JSON_stringify error w
  = (Exit 1, mkWorld (requests w) (stdout w) (stderr w ++ error_lines error)).
Proof.
  unfold report_error, error_lines, console_error2.
  unfold bind at 1. cbn [console_error].
  destruct (graphQLErrors error) as [errors|].
  - unfold bind at 1. unfold forEach. rewrite forEach_from_gql.
    cbn. by rewrite <- app_assoc.
  - reflexivity.
Qed.

(** A run with a token and a report identifier, in terms of the fetch. *)
Lemma run_configured (env : Env) (token reportUuid : string) :
  COSTLOCKER_API_TOKEN env = Some token → token ≠ EmptyString →
  REPORT_UUID env = Some reportUuid → reportUuid ≠ EmptyString →
  run transport JSON_stringify JSON_stringify_indent inspect fuel order env
  = let fetched :=
      fetchReportData fuel order
        (transport (COSTLOCKER_API_URL env) ("Static " +:+ token))
        reportUuid None 100 None initial_world in
    match fetched.1 with
    | Return result =>
        (Return tt,
         mkWorld (requests fetched.2)
                 (progress_lines reportUuid ++ report_lines result) [])
    | Throw error =>
        (Exit 1,
         mkWorld (requests fetched.2) (progress_lines reportUuid)
                 (error_lines error))
    | Exit code =>
        (Exit code, mkWorld (requests fetched.2) (progress_lines reportUuid) [])
    | Hang => (Hang, mkWorld (requests fetched.2) (progress_lines reportUuid) [])
    end.
Proof.
  intros Htoken Hne Huuid Hne'. destruct env as [url tok rep].
  cbn [COSTLOCKER_API_TOKEN REPORT_UUID COSTLOCKER_API_URL] in *. subst tok rep.
  destruct token as [|c token]; [done|].
  destruct reportUuid as [|c' reportUuid]; [done|].
  unfold run, script, check_token, main, createApolloClient, API_TOKEN, API_URL,
    default_pageSize.
  cbn [COSTLOCKER_API_TOKEN REPORT_UUID COSTLOCKER_API_URL js_not
       truthy_string negb interpolate].
  remember (fetchReportData fuel order
              (transport url ("Static " +:+ String c token))
              (String c' reportUuid) None 100 None) as fetch eqn:Hfetch.
  unfold bind, try_catch, console_log, ret, initial_world.
  cbn [requests stdout stderr app].
  subst fetch. rewrite fetchReportData_frame. cbv zeta.
  destruct (fetchReportData _ _ _ _ _ _ _ _) as [[result|error|code|] w1].
  - reflexivity.
  - cbn [fst snd]. rewrite report_error_run. reflexivity.
  - reflexivity.
  - reflexivity.
Qed.

(** A run without a token or without a report identifier does not depend
    on the transport. *)
Lemma run_not_configured (env : Env) :
  js_not (COSTLOCKER_API_TOKEN env) = true
  ∨ js_not (REPORT_UUID env) = true →
  ∃ lines,
    lines ≠ []
    ∧ ∃ out,
      run transport JSON_stringify JSON_stringify_indent inspect fuel order env
      = (Exit 1, mkWorld [] out lines).
Proof.
  destruct env as [url tok rep].
  cbn [COSTLOCKER_API_TOKEN REPORT_UUID]. intros Hmissing.
  unfold run, script, check_token, API_TOKEN. cbn [COSTLOCKER_API_TOKEN].
  destruct tok as [[|c tok]|].
  - eexists. split; [|eexists; reflexivity]. done.
  - destruct Hmissing as [Ht|Hr]; [discriminate|].
    destruct rep as [[|c' rep]|]; [|discriminate|].
    + eexists. split; [|eexists; reflexivity]. done.
    + eexists. split; [|eexists; reflexivity]. done.
  - eexists. split; [|eexists; reflexivity]. done.
Qed.

End ProgramFacts.

Lemma length_gql_lines (JSON_stringify : Json → string)
    (f : nat → GraphQLError → list string) (errors : list GraphQLError) :
  (∀ i g, ∃ k, f i g = gql_lines JSON_stringify k g) →
  length (concat (imap f errors))
  = length errors
    + length (base.filter (fun g => prints_extensions g = true) errors).
Proof.
  revert f. induction errors as [|g errors IH]; intros f Hf; [done|].
  cbn [imap concat]. rewrite length_app, IH.
  - destruct (Hf 0 g) as [k ->]. unfold gql_lines.
    destruct (prints_extensions g) eqn:Hext.
    + rewrite filter_cons_True by done. unfold prints_extensions in Hext.
      destruct (gql_extensions g) as [ext|]; [|done]. rewrite Hext. cbn. lia.
    + rewrite filter_cons_False by (by rewrite Hext).
      unfold prints_extensions in Hext.
      destruct (gql_extensions g) as [ext|]; [rewrite Hext|]; cbn; lia.
  - intros i g'. cbn. apply Hf.
Qed.

(** X8. The error handler of [main] prints the message of the error, then
    one line per GraphQL error, numbered from 1 in the order of the list,
    each followed by a line with its extensions exactly when they are
    present and truthy; it touches neither standard output nor the network
    and always ends the process with code 1, also when the error carries no
    GraphQL errors. *)
Theorem report_error_prints_numbered_errors
    (JSON_stringify : Json → string) (error : Error) (w : World) :
  let run := report_error JSON_stringify error w in
  let errors := default [] (graphQLErrors error) in
  run.1 = Exit 1
  ∧ requests run.2 = requests w
  ∧ stdout run.2 = stdout w
  ∧ stderr run.2
    = stderr w
      ++ ((newline +:+ "Fatal error:") +:+ " " +:+ message error)
         :: concat (imap (fun index gqlError =>
                            ("  GraphQL Error [" +:+ pretty (index + 1)%nat
                             +:+ "]: " +:+ gql_message gqlError)
                            :: match gql_extensions gqlError with
                               | Some extensions =>
                                   if truthy_json extensions
                                   then ["    Extensions: "
                                         +:+ JSON_stringify extensions]
                                   else []
                               | None => []
                               end) errors)
  ∧ length (stderr run.2)
    = length (stderr w) + 1 + length errors
      + length (base.filter (fun g => prints_extensions g = true) errors).
Proof.
  intros run errors. unfold run. rewrite report_error_run.
  cbn [fst snd requests stdout stderr]. unfold error_lines, errors.
  split_and!; [done..| |].
  - by destruct (graphQLErrors error).
  - rewrite length_app. cbn [length].
    destruct (graphQLErrors error) as [errs|]; cbn [default]; [|cbn; lia].
    rewrite (length_gql_lines JSON_stringify); [unfold id; lia|].
    intros i g. by exists i.
Qed.

(** X9. A successful run: with a token and a report identifier, when every
    page is answered, the program asks for the pages 1 to N with a page size
    of 100, prints the two progress lines, the heading, the items of all
    pages in page order as indented JSON, the total, the number of items
    and the closing line, writes nothing to standard error and ends with
    exit code 0. *)
Theorem run_prints_report
    (transport : option string → string → ApolloClient)
    (JSON_stringify : Json → string)
    (JSON_stringify_indent : list Json → string)
    (inspect : Error → string) (fuel : nat) (order : list nat) (env : Env)
    (token reportUuid : string) (responses : Z → ReportData) :
  let client := transport (COSTLOCKER_API_URL env) ("Static " +:+ token) in
  let total := totalItems (normalise (responses 1%Z)) in
  let N := page_count total 100 in
  let allItems :=
    concat ((fun p => items (normalise (responses p))) <$> seqZ 1 N) in
  COSTLOCKER_API_TOKEN env = Some token → token ≠ EmptyString →
  REPORT_UUID env = Some reportUuid → reportUuid ≠ EmptyString →
  (∀ p, (1 ≤ p ≤ N)%Z →
        client (request reportUuid None 100 None p) = Fulfilled (Value (responses p))) →
  Z.to_nat N ≤ fuel →
  order ≡ₚ seq 0 (Z.to_nat N - 1) →
  let r := run transport JSON_stringify JSON_stringify_indent inspect
               fuel order env in
  exit_code r.1 = Some 0%Z
  ∧ requests r.2 = request reportUuid None 100 None <$> seqZ 1 N
  ∧ stdout r.2
    = [ "Fetching report data..." +:+ newline;
        "Fetching report data for UUID: " +:+ reportUuid +:+ "..." +:+ newline;
        newline +:+ "=== Report Data ===";
        JSON_stringify_indent allItems;
        "Total items: " +:+ pretty total;
        "Items returned: " +:+ pretty (length allItems);
        newline +:+ "=== Items ===" ]
  ∧ stderr r.2 = [].
Proof.
  intros client total N allItems Htoken Hne Huuid Hne' Hresp Hfuel Hperm r.
  unfold r. rewrite (run_configured _ _ _ _ _ _ _ _ _ Htoken Hne Huuid Hne').
  cbv zeta. fold client.
  assert ((1 ≤ 100)%Z) as Hsize by lia.
  pose proof (fetchReportData_complete fuel order client reportUuid None 100
                None initial_world responses Hsize Hresp Hfuel Hperm) as Hres.
  assert (Z.to_nat (page_count (totalItems (normalise (responses 1%Z))) 100)
          ≤ fuel) as Hfuel' by exact Hfuel.
  pose proof (fetchReportData_requests fuel order client reportUuid None 100
                None initial_world (responses 1%Z)
                (Hresp 1%Z ltac:(unfold N, page_count; lia)) Hsize Hfuel')
    as Hreq.
  rewrite Hres, Hreq. done.
Qed.

Lemma run_prints_report_witness :
  let responses : Z → ReportData :=
    fun p => mkReportData (Value [JNumber p]) (Value 150%Z) in
  let transport : option string → string → ApolloClient :=
    fun _ _ v => Fulfilled (Value (responses (page (var_pagination v)))) in
  let env := mkEnv (Some "https://api.example.com/graphql") (Some "token")
                   (Some "report") in
  let client := transport (COSTLOCKER_API_URL env) ("Static " +:+ "token") in
  let N := page_count (totalItems (normalise (responses 1%Z))) 100 in
  let r := run transport (fun _ => "{}") (fun _ => "[1, 2]") message
               2 [0] env in
  (COSTLOCKER_API_TOKEN env = Some "token" ∧ "token" ≠ EmptyString
   ∧ REPORT_UUID env = Some "report" ∧ "report" ≠ EmptyString
   ∧ (∀ p, (1 ≤ p ≤ N)%Z →
           client (request "report" None 100 None p) = Fulfilled (Value (responses p)))
   ∧ Z.to_nat N ≤ 2
   ∧ [0] ≡ₚ seq 0 (Z.to_nat N - 1))
  ∧ exit_code r.1 = Some 0%Z
  ∧ length (requests r.2) = 2
  ∧ stdout r.2 !! 4 = Some "Total items: 150"
  ∧ stdout r.2 !! 5 = Some "Items returned: 2"
  ∧ stderr r.2 = [].
Proof.
  intros responses transport env client N r.
  assert ("token" ≠ EmptyString) as Hne by discriminate.
  assert ("report" ≠ EmptyString) as Hne' by discriminate.
  assert (∀ p, (1 ≤ p ≤ N)%Z →
               client (request "report" None 100 None p)
               = Fulfilled (Value (responses p))) as Hresp by (intros p _; reflexivity).
  assert (Z.to_nat N ≤ 2) as Hfuel by (vm_compute; lia).
  assert ([0] ≡ₚ seq 0 (Z.to_nat N - 1)) as Hperm by (vm_compute; done).
  split; [by split_and!|].
  destruct (run_prints_report
              transport (fun _ => "{}") (fun _ => "[1, 2]") message 2 [0] env
              "token" "report" responses eq_refl Hne eq_refl Hne'
              Hresp Hfuel Hperm) as (Hcode & Hreq & Hout & Herr).
  unfold r. split; [exact Hcode|]. split; [by rewrite Hreq|].
  split; [by rewrite Hout|]. split; [by rewrite Hout|exact Herr].
Defined.

(** X10. A failed run: with a token and a report identifier, when the
    fetch throws an error, nothing of the report is printed: standard
    output holds the two progress lines only, standard error holds the
    lines of the error handler, and the exit code is 1. *)
Theorem run_reports_failure
    (transport : option string → string → ApolloClient)
    (JSON_stringify : Json → string)
    (JSON_stringify_indent : list Json → string)
    (inspect : Error → string) (fuel : nat) (order : list nat) (env : Env)
    (token reportUuid : string) (error : Error) :
  let fetched :=
    fetchReportData fuel order
      (transport (COSTLOCKER_API_URL env) ("Static " +:+ token))
      reportUuid None 100 None initial_world in
  COSTLOCKER_API_TOKEN env = Some token → token ≠ EmptyString →
  REPORT_UUID env = Some reportUuid → reportUuid ≠ EmptyString →
  fetched.1 = Throw error →
  let r := run transport JSON_stringify JSON_stringify_indent inspect
               fuel order env in
  exit_code r.1 = Some 1%Z
  ∧ requests r.2 = requests fetched.2
  ∧ stdout r.2
    = [ "Fetching report data..." +:+ newline;
        "Fetching report data for UUID: " +:+ reportUuid +:+ "..." +:+ newline ]
  ∧ stderr r.2 = error_lines JSON_stringify error.
Proof.
  intros fetched Htoken Hne Huuid Hne' Hthrow r.
  unfold r. rewrite (run_configured _ _ _ _ _ _ _ _ _ Htoken Hne Huuid Hne').
  cbv zeta. fold fetched. by rewrite Hthrow.
Qed.

Lemma run_reports_failure_witness :
  let denied :=
    mkError "Access denied"
            (Some [mkGraphQLError "Forbidden" (Some (JString "AUTH"));
                   mkGraphQLError "Try again" None]) in
  let transport : option string → string → ApolloClient :=
    fun _ _ _ => Rejected denied in
  let env := mkEnv (Some "https://api.example.com/graphql") (Some "token")
                   (Some "report") in
  let r := run transport (fun _ => "AUTH") (fun _ => "[]") message 1 [] env in
  (COSTLOCKER_API_TOKEN env = Some "token" ∧ "token" ≠ EmptyString
   ∧ REPORT_UUID env = Some "report" ∧ "report" ≠ EmptyString
   ∧ (fetchReportData 1 []
        (transport (COSTLOCKER_API_URL env) ("Static " +:+ "token"))
        "report" None 100 None initial_world).1 = Throw denied)
  ∧ exit_code r.1 = Some 1%Z
  ∧ length (stdout r.2) = 2
  ∧ stderr r.2
    = [ newline +:+ "Fatal error: Access denied";
        "  GraphQL Error [1]: Forbidden";
        "    Extensions: AUTH";
        "  GraphQL Error [2]: Try again" ].
Proof.
  intros denied transport env r.
  assert ("token" ≠ EmptyString) as Hne by discriminate.
  assert ("report" ≠ EmptyString) as Hne' by discriminate.
  split; [by split_and!|].
  destruct (run_reports_failure
              transport (fun _ => "AUTH") (fun _ => "[]") message 1 [] env
              "token" "report" denied eq_refl Hne eq_refl Hne' eq_refl)
    as (Hcode & _ & Hout & Herr).
  unfold r. split; [exact Hcode|]. split; [by rewrite Hout|]. by rewrite Herr.
Defined.

Lemma js_not_false (x : option string) :
  js_not x = false → ∃ s, x = Some s ∧ s ≠ EmptyString.
Proof.
  destruct x as [[|c s]|]; cbn; try discriminate. intros _. by eexists.
Qed.

(** The handler of [main] catches every error of the fetch and ends the
    process: nothing is thrown out of [main]. *)
Lemma main_never_throws
    (transport : option string → string → ApolloClient)
    (JSON_stringify : Json → string)
    (JSON_stringify_indent : list Json → string)
    (fuel : nat) (order : list nat) (env : Env) (w : World) (e : Error) :
  (main transport JSON_stringify JSON_stringify_indent fuel order env w).1
  ≠ Throw e.
Proof.
  unfold main, createApolloClient, default_pageSize.
  destruct (REPORT_UUID env) as [[|c reportUuid]|]; [by cbn| |by cbn].
  cbn [truthy_string negb].
  remember (fetchReportData fuel order _ _ None 100 None) as fetch eqn:Hfetch.
  unfold bind, try_catch, console_log, ret.
  cbn [requests stdout stderr].
  subst fetch. rewrite fetchReportData_frame. cbv zeta.
  destruct (fetchReportData_shape
              (transport (API_URL env)
                 ("Static " +:+ interpolate (API_TOKEN env)))
              (String c reportUuid) None 100 None fuel order)
    as (k & completion & Hc & ->).
  cbn [fst snd]. destruct completion as [result|error|code|]; try done.
  by rewrite report_error_run.
Qed.

(** X11. The exit code tells whether anything was written to standard
    error, for every environment, transport and course of the network:
    the script runs to its end (exit code 0) with nothing on standard error,
    or ends with exit code 1 after writing to standard error, or never
    ends, with nothing on standard error; no other exit code occurs.  No
    error reaches the handler of [main().catch]: in whatever world it is
    called, [main] never ends with a thrown error. *)
Theorem run_exit_code_matches_stderr
    (transport : option string → string → ApolloClient)
    (JSON_stringify : Json → string)
    (JSON_stringify_indent : list Json → string)
    (inspect : Error → string) (fuel : nat) (order : list nat) (env : Env) :
  let r := run transport JSON_stringify JSON_stringify_indent inspect
               fuel order env in
  ((r.1 = Return tt ∧ stderr r.2 = [])
   ∨ (r.1 = Exit 1 ∧ stderr r.2 ≠ [])
   ∨ (r.1 = Hang ∧ stderr r.2 = []))
  ∧ (∀ w e,
       (main transport JSON_stringify JSON_stringify_indent fuel order env
          w).1 ≠ Throw e)
  ∧ Forall (fun line => ¬ ∃ rest, line = "Unhandled error:" +:+ rest)
           (stderr r.2).
Proof.
  intros r. unfold r. split; [|split; [intros w e; apply main_never_throws|]].
  - destruct (js_not (COSTLOCKER_API_TOKEN env)) eqn:Htoken;
      [|destruct (js_not (REPORT_UUID env)) eqn:Huuid].
    + destruct (run_not_configured transport JSON_stringify
                  JSON_stringify_indent inspect fuel order env)
        as (lines & Hne & out & ->); [by left|].
      right. left. by split.
    + destruct (run_not_configured transport JSON_stringify
                  JSON_stringify_indent inspect fuel order env)
        as (lines & Hne & out & ->); [by right|].
      right. left. by split.
    + apply js_not_false in Htoken as (token & Htoken & Hne).
      apply js_not_false in Huuid as (reportUuid & Huuid & Hne').
      rewrite (run_configured _ _ _ _ _ _ _ _ _ Htoken Hne Huuid Hne').
      cbv zeta.
      destruct (fetchReportData_shape
                  (transport (COSTLOCKER_API_URL env) ("Static " +:+ token))
                  reportUuid None 100 None fuel order) as (k & c & Hc & ->).
      cbn [fst snd]. destruct c as [result|error|code|].
      * left. by split.
      * right. left. by split.
      * by destruct (Hc code).
      * right. right. by split.
  - destruct (js_not (COSTLOCKER_API_TOKEN env)) eqn:Htoken;
      [|destruct (js_not (REPORT_UUID env)) eqn:Huuid].
    + destruct env as [url [[|c tok]|] rep]; try discriminate;
        cbn; repeat constructor; intros [rest Hrest]; discriminate Hrest.
    + destruct env as [url [[|c tok]|] [[|c' rep]|]]; try discriminate;
        cbn; repeat constructor; intros [rest Hrest]; discriminate Hrest.
    + apply js_not_false in Htoken as (token & Htoken & Hne).
      apply js_not_false in Huuid as (reportUuid & Huuid & Hne').
      rewrite (run_configured _ _ _ _ _ _ _ _ _ Htoken Hne Huuid Hne').
      cbv zeta.
      destruct (fetchReportData _ _ _ _ _ _ _ _) as [[result|error|code|] w1];
        cbn [fst snd stderr]; try by constructor.
      unfold error_lines. constructor.
      { intros [rest Hrest]. discriminate Hrest. }
      destruct (graphQLErrors error) as [errors|]; [|constructor].
      apply Forall_concat, Forall_forall. intros lines Hlines.
      apply list_elem_of_lookup in Hlines as [i Hi].
      rewrite list_lookup_imap in Hi.
      destruct (errors !! i) as [g|]; [|done]. injection Hi as <-.
      unfold gql_lines. constructor.
      { intros [rest Hrest]. discriminate Hrest. }
      destruct (gql_extensions g) as [ext|]; [|constructor].
      destruct (truthy_json ext); constructor; [|constructor].
      intros [rest Hrest]. discriminate Hrest.
Qed.

(** X12. The program asks for nothing but the configured report: every
    query it issues carries the value of [REPORT_UUID], a page size of 100,
    no filter and no sorting, and the pages asked for are 1, 2, ..., k; when
    any query is issued, both the token and the report identifier are set
    and not empty. *)
Theorem run_queries_configured_report_only
    (transport : option string → string → ApolloClient)
    (JSON_stringify : Json → string)
    (JSON_stringify_indent : list Json → string)
    (inspect : Error → string) (fuel : nat) (order : list nat) (env : Env) :
  let r := run transport JSON_stringify JSON_stringify_indent inspect
               fuel order env in
  ∃ k : nat,
    requests r.2
    = request (default EmptyString (REPORT_UUID env)) None 100 None
        <$> seqZ 1 (Z.of_nat k)
    ∧ (k = 0
       ∨ (js_not (COSTLOCKER_API_TOKEN env) = false
          ∧ js_not (REPORT_UUID env) = false)).
Proof.
  intros r. unfold r.
  destruct (js_not (COSTLOCKER_API_TOKEN env)) eqn:Htoken;
    [|destruct (js_not (REPORT_UUID env)) eqn:Huuid].
  - destruct (run_not_configured transport JSON_stringify JSON_stringify_indent
                inspect fuel order env) as (lines & Hne & out & ->); [by left|].
    exists 0. split; [done|by left].
  - destruct (run_not_configured transport JSON_stringify JSON_stringify_indent
                inspect fuel order env) as (lines & Hne & out & ->); [by right|].
    exists 0. split; [done|by left].
  - apply js_not_false in Htoken as (token & Htoken & Hne).
    apply js_not_false in Huuid as (reportUuid & Huuid & Hne').
    rewrite (run_configured _ _ _ _ _ _ _ _ _ Htoken Hne Huuid Hne').
    cbv zeta.
    destruct (fetchReportData_shape
                (transport (COSTLOCKER_API_URL env) ("Static " +:+ token))
                reportUuid None 100 None fuel order) as (k & c & Hc & ->).
    exists (S k). rewrite Huuid. cbn [fst snd default from_option id].
    split; [|by right].
    by destruct c.
Qed.

Section Extensional.

Variables client client' : ApolloClient.
Hypothesis Hsame : ∀ v, client' v = client v.

Lemma for_pages_ext (fuel : nat) uuid filter pageSize sorting totalPages :
  ∀ p acc w,
    for_pages fuel client' uuid filter pageSize sorting totalPages p acc w
    = for_pages fuel client uuid filter pageSize sorting totalPages p acc w.
Proof.
  induction fuel as [|fuel IH]; intros p acc w; [done|].
  cbn [for_pages]. destruct (Number.leb (Finite p) totalPages); [|done].
  unfold bind at 1 2. rewrite !fetchReportDataPage_run.
  unfold page_promise. by rewrite Hsame, IH.
Qed.

Lemma fetchReportData_ext fuel order uuid filter pageSize sorting w :
  fetchReportData fuel order client' uuid filter pageSize sorting w
  = fetchReportData fuel order client uuid filter pageSize sorting w.
Proof.
  assert (page_promise client' uuid filter pageSize sorting 1
          = page_promise client uuid filter pageSize sorting 1) as Hpage
    by (unfold page_promise; by rewrite Hsame).
  destruct (client (request uuid filter pageSize sorting 1))
    as [[| |first]|e] eqn:H1.
  1, 2, 4:
    erewrite (fetchReportData_first_rejected client),
             (fetchReportData_first_rejected client');
    [reflexivity|rewrite Hpage|]; unfold page_promise; rewrite H1; reflexivity.
  rewrite (fetchReportData_unfold client _ _ _ _ _ _ _ _ H1).
  rewrite (fetchReportData_unfold client' _ _ _ _ _ _ _ first)
    by (by rewrite Hsame).
  cbv zeta. by rewrite for_pages_ext.
Qed.

End Extensional.

(** X13. The program talks to the configured endpoint only, and always with
    the header [Static <token>]: two transports that answer alike at the
    endpoint of [COSTLOCKER_API_URL] under the [Authorization] header made of
    ["Static "] and the token give the same run, whatever they answer
    elsewhere or under another header. *)
Theorem run_uses_configured_endpoint_only
    (transport transport' : option string → string → ApolloClient)
    (JSON_stringify : Json → string)
    (JSON_stringify_indent : list Json → string)
    (inspect : Error → string) (fuel : nat) (order : list nat) (env : Env) :
  (∀ v, transport' (COSTLOCKER_API_URL env)
          ("Static " +:+ interpolate (COSTLOCKER_API_TOKEN env)) v
        = transport (COSTLOCKER_API_URL env)
            ("Static " +:+ interpolate (COSTLOCKER_API_TOKEN env)) v) →
  run transport' JSON_stringify JSON_stringify_indent inspect fuel order env
  = run transport JSON_stringify JSON_stringify_indent inspect fuel order env.
Proof.
  intros Hsame.
  destruct (js_not (COSTLOCKER_API_TOKEN env)) eqn:Htoken;
    [|destruct (js_not (REPORT_UUID env)) eqn:Huuid].
  - destruct env as [url [[|c tok]|] rep]; try discriminate; reflexivity.
  - destruct env as [url [[|c tok]|] [[|c' rep]|]]; try discriminate;
      reflexivity.
  - apply js_not_false in Htoken as (token & Htoken & Hne).
    apply js_not_false in Huuid as (reportUuid & Huuid & Hne').
    rewrite !(run_configured _ _ _ _ _ _ _ _ _ Htoken Hne Huuid Hne').
    rewrite Htoken in Hsame. cbn [interpolate] in Hsame.
    cbv zeta. by rewrite (fetchReportData_ext _ _ Hsame).
Qed.

Lemma run_uses_configured_endpoint_only_witness :
  let answer := Fulfilled (Value (mkReportData (Value [JNumber 7]) (Value 1%Z))) in
  let transport : option string → string → ApolloClient :=
    fun _ _ _ => answer in
  let transport' : option string → string → ApolloClient :=
    fun _ header _ =>
      if String.eqb header "Static token" then answer
      else Rejected (mkError "Unauthorized" None) in
  let env := mkEnv (Some "https://api.example.com/graphql") (Some "token")
                   (Some "report") in
  (∀ v, transport' (COSTLOCKER_API_URL env)
          ("Static " +:+ interpolate (COSTLOCKER_API_TOKEN env)) v
        = transport (COSTLOCKER_API_URL env)
            ("Static " +:+ interpolate (COSTLOCKER_API_TOKEN env)) v)
  ∧ run transport' (fun _ => "{}") (fun _ => "[7]") message 1 [] env
    = run transport (fun _ => "{}") (fun _ => "[7]") message 1 [] env.
Proof.
  intros answer transport transport' env.
  assert (∀ v, transport' (COSTLOCKER_API_URL env)
            ("Static " +:+ interpolate (COSTLOCKER_API_TOKEN env)) v
          = transport (COSTLOCKER_API_URL env)
              ("Static " +:+ interpolate (COSTLOCKER_API_TOKEN env)) v)
    as Hsame by (intros v; reflexivity).
  split; [exact Hsame|].
  exact (run_uses_configured_endpoint_only
           transport transport' (fun _ => "{}") (fun _ => "[7]") message 1 []
           env Hsame).
Defined.

(** * The configuration guards *)




